(** * Post service of the blog backend: routes/posts.js and utils/validators.js

    A shallow embedding of the route handlers of [routes/posts.js] (and of
    the global error handler that follows them in the server set-up), with
    the JavaScript built-ins they call ([parseInt], [String.prototype.split],
    [String.prototype.trim], [Array.prototype.findIndex], [splice], [push],
    [Math.ceil], [new RegExp(_, 'i')]) and the calls they make to the
    document store ([findById], [find], [countDocuments], [save],
    [findByIdAndUpdate], [findByIdAndDelete]).

    Conventions of the model.
    - A JavaScript string is a [string]: a sequence of code units below 256.
    - A JavaScript number that holds an integer is a [Z]; the arithmetic of
      the handlers ([(page - 1) * limit], [Math.ceil(total / limit)]) is
      exact on them, as it is in JavaScript on safe integers (below 2^53
      in magnitude); the theorems that depend on the value of a request's
      number take it to be one.
    - [undefined] is [None]; a request field is an [option string].
    - A value thrown, or a rejected promise, is [Rejected e]; a handler's
      [try { ... } catch (error) { ... }] is a match on the result.
    - The collection of posts is a finite map from document ids to posts;
      a handler takes the collection and returns the response together
      with the collection it leaves behind.
    - [populate] only decorates the response with display fields of the
      referenced users and leaves the stored documents alone; responses of
      the model carry the references themselves. *)

From Stdlib Require Import ZArith Ascii String List Lia Permutation.
From stdpp Require Import base option list gmap strings sorting.

Local Open Scope string_scope.
Local Open Scope list_scope.

(** ** JavaScript built-ins on strings *)

Module JS.

(** WhiteSpace and LineTerminator code units below 256: TAB, LF, VT, FF, CR,
    SP and NBSP. These are what [trim] strips and what [parseInt] skips. *)
Definition isWhiteSpace (c : ascii) : bool :=
  let n := N_of_ascii c in
  ((9 <=? n)%N && (n <=? 13)%N) || (n =? 32)%N || (n =? 160)%N.

Fixpoint trimStart (s : string) : string :=
  match s with
  | String c s' => if isWhiteSpace c then trimStart s' else s
  | EmptyString => EmptyString
  end.

Fixpoint trimEnd (s : string) : string :=
  match s with
  | EmptyString => EmptyString
  | String c s' =>
      match trimEnd s' with
      | EmptyString => if isWhiteSpace c then EmptyString else String c EmptyString
      | t => String c t
      end
  end.

(** [s.trim()] *)
Definition trim (s : string) : string := trimEnd (trimStart s).

(** [s.split(sep)] for a separator of one code unit. The result is never
    empty: the empty string splits into one empty piece. *)
Fixpoint split (sep : ascii) (s : string) : list string :=
  match s with
  | EmptyString => [EmptyString]
  | String c s' =>
      if Ascii.eqb c sep then EmptyString :: split sep s'
      else match split sep s' with
           | piece :: pieces => String c piece :: pieces
           | [] => [String c EmptyString]
           end
  end.

(** [pieces.join(sep)], the inverse of [split]. *)
Fixpoint join (sep : ascii) (pieces : list string) : string :=
  match pieces with
  | [] => EmptyString
  | [p] => p
  | p :: ps => p ++ String sep (join sep ps)
  end.

Fixpoint contains_char (c : ascii) (s : string) : bool :=
  match s with
  | EmptyString => false
  | String d s' => Ascii.eqb d c || contains_char c s'
  end.

(** ToBoolean on an optional string: [undefined] and [""] are falsy. *)
Definition truthy (v : option string) : bool :=
  match v with
  | Some EmptyString => false
  | Some _ => true
  | None => false
  end.

(** The value of a digit in radix up to 36. *)
Definition digit_value (c : ascii) : option Z :=
  let n := Z.of_N (N_of_ascii c) in
  if (48 <=? n)%Z && (n <=? 57)%Z then Some (n - 48)%Z
  else if (97 <=? n)%Z && (n <=? 122)%Z then Some (n - 87)%Z
  else if (65 <=? n)%Z && (n <=? 90)%Z then Some (n - 55)%Z
  else None.

(** The longest prefix of radix-[R] digits, read as a number; [acc] is
    [None] until a digit has been seen. *)
Fixpoint parse_digits (R : Z) (s : string) (acc : option Z) : option Z :=
  match s with
  | String c s' =>
      match digit_value c with
      | Some d =>
          if (d <? R)%Z then parse_digits R s' (Some (R * default 0%Z acc + d)%Z)
          else acc
      | None => acc
      end
  | EmptyString => acc
  end.

Definition strip_sign (s : string) : Z * string :=
  match s with
  | String "-" s' => ((-1)%Z, s')
  | String "+" s' => (1%Z, s')
  | _ => (1%Z, s)
  end.

Definition strip_hex_prefix (s : string) : Z * string :=
  match s with
  | String "0" (String "x" s') => (16%Z, s')
  | String "0" (String "X" s') => (16%Z, s')
  | _ => (10%Z, s)
  end.

(** [parseInt(v)] with no radix argument; [None] is NaN. An absent
    parameter is converted to the string "undefined", which has no digit.
    The value is the integer that the digits write; it is the number that
    JavaScript returns when it is a safe integer (a longer numeral is
    rounded to a double there), and what is proved of the value of a
    parameter is proved of safe integers. *)
Definition parseInt (v : option string) : option Z :=
  match v with
  | None => None
  | Some s =>
      let '(sign, s1) := strip_sign (trimStart s) in
      let '(R, s2) := strip_hex_prefix s1 in
      match parse_digits R s2 None with
      | Some n => Some (sign * n)%Z
      | None => None
      end
  end.

(** [x || d] on a number: NaN and 0 are falsy. *)
Definition or_default (x : option Z) (d : Z) : Z :=
  match x with
  | Some n => if (n =? 0)%Z then d else n
  | None => d
  end.

(** [Math.ceil(a / b)] for integers [a] and [b <> 0]. *)
Definition ceil_div (a b : Z) : Z := (- ((- a) / b))%Z.

(** [xs.findIndex(p)]: the first index whose element satisfies [p], or -1. *)
Fixpoint findIndex {A} (p : A → bool) (xs : list A) : Z :=
  match xs with
  | [] => (-1)%Z
  | x :: xs' =>
      if p x then 0%Z
      else let i := findIndex p xs' in
           if (i <? 0)%Z then (-1)%Z else (i + 1)%Z
  end.

(** [xs.splice(i, 1)] for an index [i >= 0]: the element at [i] is removed. *)
Definition splice1 {A} (i : Z) (xs : list A) : list A := delete (Z.to_nat i) xs.

(** [xs.push(x)] *)
Definition push {A} (xs : list A) (x : A) : list A := xs ++ [x].

(** [Number.MAX_SAFE_INTEGER]: up to it in magnitude, an integer is a
    number of its own, and the sums, differences and products that stay
    within it are exact. *)
Definition MAX_SAFE_INTEGER : Z := (2 ^ 53 - 1)%Z.

(** [Number.isSafeInteger(n)] on an integer. *)
Definition isSafeInteger (n : Z) : bool := (Z.abs n <=? MAX_SAFE_INTEGER)%Z.

End JS.

(** ** Regular expressions: [new RegExp(pattern, 'i')]

    The list handler builds a regular expression from the [category]
    parameter as it arrives. The model interprets the patterns made of
    ordinary characters and of the wildcard [.]; what the engine does on
    any other pattern (one that uses another syntax character) is left to
    a parameter, [ext], which answers [None] where the constructor throws
    a SyntaxError and the test function of the pattern otherwise. *)

Module RegExp.

Inductive Atom : Type :=
  | Lit (c : ascii)
  | AnyChar.

(** SyntaxCharacter of the pattern grammar: ^ $ \ . * + ? ( ) [ ] { } | *)
Definition isSyntaxCharacter (c : ascii) : bool :=
  JS.contains_char c "^$\.*+?()[]{}|".

Fixpoint parse (pattern : string) : option (list Atom) :=
  match pattern with
  | EmptyString => Some []
  | String c rest =>
      if Ascii.eqb c "." then cons AnyChar <$> parse rest
      else if isSyntaxCharacter c then None
      else cons (Lit c) <$> parse rest
  end.

(** A pattern without a syntax character: it stands for itself. *)
Fixpoint isLiteral (pattern : string) : bool :=
  match pattern with
  | EmptyString => true
  | String c rest => negb (isSyntaxCharacter c) && isLiteral rest
  end.

(** Canonicalize of the ignore-case flag, on code units below 256: a
    character is compared through its upper-case form when that form is a
    single code unit (the upper-case forms of 181 and 255 lie above 255;
    223 has none of one code unit). *)
Definition canonicalize (c : ascii) : N :=
  let n := N_of_ascii c in
  if (97 <=? n)%N && (n <=? 122)%N then (n - 32)%N
  else if (224 <=? n)%N && (n <=? 254)%N && negb (n =? 247)%N then (n - 32)%N
  else if (n =? 181)%N then 924%N
  else if (n =? 255)%N then 376%N
  else n.

Definition isLineTerminator (c : ascii) : bool :=
  let n := N_of_ascii c in (n =? 10)%N || (n =? 13)%N.

Definition atom_matches (a : Atom) (c : ascii) : bool :=
  match a with
  | Lit d => (canonicalize d =? canonicalize c)%N
  | AnyChar => negb (isLineTerminator c)
  end.

(** The atoms match a prefix of [s]. *)
Fixpoint match_here (atoms : list Atom) (s : string) : bool :=
  match atoms, s with
  | [], _ => true
  | a :: atoms', String c s' => atom_matches a c && match_here atoms' s'
  | _ :: _, EmptyString => false
  end.

(** The atoms match somewhere in [s]: a pattern is not anchored. *)
Fixpoint search (atoms : list Atom) (s : string) : bool :=
  match_here atoms s ||
  match s with
  | String _ s' => search atoms s'
  | EmptyString => false
  end.

Inductive t : Type :=
  | Fragment (atoms : list Atom)
  | External (test : string → bool).

Definition test (r : t) (s : string) : bool :=
  match r with
  | Fragment atoms => search atoms s
  | External f => f s
  end.

End RegExp.

(** ** Errors and the result of an awaited call *)

Inductive Error : Type :=
  | CastError          (* an id that is not a document id *)
  | ValidationError    (* a document or update the schema rejects *)
  | SyntaxError        (* an invalid regular expression *)
  | MongoServerError.  (* a command the store rejects *)

Inductive Result (A : Type) : Type :=
  | Resolved (a : A)
  | Rejected (e : Error).
Arguments Resolved {A} a.
Arguments Rejected {A} e.

#[global] Instance Result_ret : MRet Result := @Resolved.
#[global] Instance Result_bind : MBind Result := λ A B f m,
  match m with
  | Resolved a => f a
  | Rejected e => Rejected e
  end.

#[global] Instance Result_fmap : FMap Result := λ A B f m,
  match m with
  | Resolved a => Resolved (f a)
  | Rejected e => Rejected e
  end.

(** [new RegExp(pattern, 'i')] *)
Definition RegExp_new (ext : string → option (string → bool)) (pattern : string)
  : Result RegExp.t :=
  match RegExp.parse pattern with
  | Some atoms => Resolved (RegExp.Fragment atoms)
  | None =>
      match ext pattern with
      | Some f => Resolved (RegExp.External f)
      | None => Rejected SyntaxError
      end
  end.

(** ** Data model *)

Definition ObjectId : Type := N.

Record User : Type := mkUser {
  user_id : ObjectId;      (* req.user._id *)
  role : string            (* req.user.role *)
}.

Record Like : Type := mkLike { like_user : ObjectId }.

Record Comment : Type := mkComment {
  comment_id : ObjectId;
  comment_user : ObjectId;
  comment_content : option string;
  comment_createdAt : Z
}.

Record Post : Type := mkPost {
  title : option string;
  content : option string;
  excerpt : option string;
  category : option string;
  status : option string;
  tags : list string;
  featuredImage : option string;
  author : ObjectId;
  views : Z;
  createdAt : Z;
  likes : list Like;
  comments : list Comment
}.

#[global] Instance Like_eq_dec : EqDecision Like.
Proof. solve_decision. Defined.
#[global] Instance Comment_eq_dec : EqDecision Comment.
Proof. solve_decision. Defined.

Definition set_views (v : Z) (p : Post) : Post :=
  mkPost (title p) (content p) (excerpt p) (category p) (status p) (tags p)
         (featuredImage p) (author p) v (createdAt p) (likes p) (comments p).

Definition set_likes (l : list Like) (p : Post) : Post :=
  mkPost (title p) (content p) (excerpt p) (category p) (status p) (tags p)
         (featuredImage p) (author p) (views p) (createdAt p) l (comments p).

Definition set_comments (c : list Comment) (p : Post) : Post :=
  mkPost (title p) (content p) (excerpt p) (category p) (status p) (tags p)
         (featuredImage p) (author p) (views p) (createdAt p) (likes p) c.

(** The posts collection. *)
Abbreviation Collection := (gmap ObjectId Post).

(** A document in memory: its [_id] and its fields. *)
Abbreviation Doc := (ObjectId * Post)%type.

(** What the environment supplies to a request that creates a document or
    a subdocument: the clock and the id generator. *)
Record Env : Type := mkEnv {
  now : Z;
  newObjectId : ObjectId
}.

(** ** Requests and responses *)

(** [req.query] of GET /api/posts *)
Record Query : Type := mkQuery {
  q_page : option string;
  q_limit : option string;
  q_category : option string;
  q_tags : option string;
  q_status : option string;
  q_author : option string
}.

(** [req.body] of POST /api/posts and PUT /api/posts/:id *)
Record Body : Type := mkBody {
  b_title : option string;
  b_content : option string;
  b_excerpt : option string;
  b_tags : option string;
  b_category : option string;
  b_status : option string;
  b_featuredImage : option string
}.

Record Pagination : Type := mkPagination {
  current : Z;
  pages : Z;
  total : Z
}.

Inductive Data : Type :=
  | PostList (posts : list Doc) (pagination : Pagination)
  | OnePost (post : option Doc)
  | LikeInfo (likes_count : nat) (isLiked : bool)
  | OneComment (comment : Comment).

Inductive Message : Type :=
  | Text (s : string)
  | ErrorMessage (e : Error).   (* error.message *)

Record Response : Type := mkResponse {
  statusCode : nat;
  success : bool;
  message : option Message;
  data : option Data
}.

(** [res.status(code).json({ success: false, message })] *)
Definition fail (code : nat) (m : Message) : Response :=
  mkResponse code false (Some m) None.

(** [try { body } catch (error) { res.status(code).json(...) }]: when the
    body throws, nothing has been saved and the collection is as it was. *)
Definition try_catch (db : Collection) (body : Result (Response * Collection))
    (code : nat) : Response * Collection :=
  match body with
  | Resolved r => r
  | Rejected e => (fail code (ErrorMessage e), db)
  end.

(** ** The store and the handlers

    The parts of the application that lie outside routes/posts.js are
    parameters of the handlers:
    - [castObjectId], the cast of a string to a document id (the ODM's),
      [None] where the cast fails;
    - [regexp_ext], the regular-expression engine outside the fragment
      interpreted above;
    - [validatePost], the validation of a new post against the schema of
      models/Post, run by [save];
    - [validateUpdate], the validation of an update document against the
      same schema, run by [findByIdAndUpdate] under [runValidators]. *)

(** The update document of PUT /api/posts/:id. *)
Record Update : Type := mkUpdate {
  u_title : option string;
  u_content : option string;
  u_excerpt : option string;
  u_tags : list string;
  u_category : option string;
  u_status : option string;
  u_featuredImage : option string
}.

(** The [query] object of GET /api/posts: a key is [None] when it is not set. *)
Record Filter : Type := mkFilter {
  f_status : option string;
  f_category : option RegExp.t;
  f_tags : option (list string);
  f_author : option string
}.

(** [sort({ createdAt: -1 })]: newest first. *)
Definition newest_first (a b : Doc) : Prop := (createdAt b.2 ≤ createdAt a.2)%Z.

#[global] Instance newest_first_dec (a b : Doc) : Decision (newest_first a b).
Proof. unfold newest_first. apply _. Defined.

(** A key that an update leaves [undefined] is dropped from the update. *)
Definition replace_if_defined (new old : option string) : option string :=
  match new with
  | Some _ => new
  | None => old
  end.

Definition apply_update (u : Update) (p : Post) : Post :=
  mkPost (replace_if_defined (u_title u) (title p))
         (replace_if_defined (u_content u) (content p))
         (replace_if_defined (u_excerpt u) (excerpt p))
         (replace_if_defined (u_category u) (category p))
         (replace_if_defined (u_status u) (status p))
         (u_tags u)
         (replace_if_defined (u_featuredImage u) (featuredImage p))
         (author p) (views p) (createdAt p) (likes p) (comments p).

(** Modelled from the spec: the comment subdocuments of models/Post, which
    is outside the embedded sources. A comment requires a non-empty
    [content]; its [_id] is generated and its [createdAt] is the time of
    its creation. *)
Definition comment_valid (c : Comment) : bool :=
  match comment_content c with
  | Some s => negb (String.eqb s "")
  | None => false
  end.

(** Modelled from the spec: the defaults of the same missing schema, by
    which the subdocument array builds a comment from [{ user, content }]. *)
Definition new_Comment (env : Env) (user : ObjectId) (content : option string) : Comment :=
  mkComment (newObjectId env) user content (now env).

(** Modelled from the spec: the authentication middleware, middleware/auth,
    which is missing from the sources. A credential resolves to a user, or the
    request is rejected with 401 before its handler runs. *)
Definition auth (credential : option User) (db : Collection)
    (handler : User → Response * Collection) : Response * Collection :=
  match credential with
  | Some user => handler user
  | None => (fail 401 (Text "Unauthorized"), db)
  end.

Section Handlers.

Variable castObjectId : string → option ObjectId.
Variable regexp_ext : string → option (string → bool).
Variable validatePost : Post → bool.
Variable validateUpdate : Update → bool.

(** *** Store operations *)

(** [Post.findById(id)] *)
Definition findById (db : Collection) (id : string) : Result (option Doc) :=
  match castObjectId id with
  | Some oid => Resolved (pair oid <$> db !! oid)
  | None => Rejected CastError
  end.

(** [post.save()] on a document read from the collection. *)
Definition save (db : Collection) (doc : Doc) : Collection := <[doc.1 := doc.2]> db.

(** [post.save()] on a new document. *)
Definition save_new (db : Collection) (doc : Doc) : Result Collection :=
  if negb (validatePost doc.2) then Rejected ValidationError
  else match db !! doc.1 with
       | Some _ => Rejected MongoServerError
       | None => Resolved (<[doc.1 := doc.2]> db)
       end.

(** [Post.findByIdAndUpdate(id, update, { new: true, runValidators: true })] *)
Definition findByIdAndUpdate (db : Collection) (id : string) (u : Update)
  : Result (option Doc * Collection) :=
  match castObjectId id with
  | None => Rejected CastError
  | Some oid =>
      if negb (validateUpdate u) then Rejected ValidationError
      else match db !! oid with
           | Some p => Resolved (Some (oid, apply_update u p), <[oid := apply_update u p]> db)
           | None => Resolved (None, db)
           end
  end.

(** [Post.findByIdAndDelete(id)] *)
Definition findByIdAndDelete (db : Collection) (id : string) : Result Collection :=
  match castObjectId id with
  | Some oid => Resolved (delete oid db)
  | None => Rejected CastError
  end.

(** The cast of the filter: [author] is a document id. *)
Definition cast_author (f : Filter) : Result (option ObjectId) :=
  match f_author f with
  | None => Resolved None
  | Some a =>
      match castObjectId a with
      | Some oid => Resolved (Some oid)
      | None => Rejected CastError
      end
  end.

(** Whether a post satisfies the filter. A key that is not set matches
    every post; [tags: { $in: ts }] matches a post one of whose tags is
    among [ts]; a regular expression matches a string that it finds a
    match in. *)
Definition matches (f : Filter) (author_id : option ObjectId) (p : Post) : bool :=
  match f_status f with
  | Some s => bool_decide (status p = Some s)
  | None => true
  end &&
  match f_category f with
  | Some r => match category p with
              | Some c => RegExp.test r c
              | None => false
              end
  | None => true
  end &&
  match f_tags f with
  | Some ts => existsb (λ t, bool_decide (t ∈ ts)) (tags p)
  | None => true
  end &&
  match author_id with
  | Some a => bool_decide (author p = a)
  | None => true
  end.

Definition matching (db : Collection) (f : Filter) (author_id : option ObjectId)
  : list Doc :=
  List.filter (λ d, matches f author_id d.2) (map_to_list db).

(** [cursor.limit(n)]: 0 is no limit, and a negative [n] asks for one
    batch of at most [-n] documents. *)
Definition apply_limit (n : Z) (docs : list Doc) : list Doc :=
  if (n =? 0)%Z then docs else take (Z.to_nat (Z.abs n)) docs.

(** [Post.find(query).sort({ createdAt: -1 }).skip(skip).limit(limit)];
    the store rejects a negative [skip]. Among posts of one date the store
    fixes no order; the model takes that of a stable sort, and what is
    proved of the order of a page is proved either for every order or of
    posts with distinct dates. *)
Definition find (db : Collection) (f : Filter) (skip limit : Z) : Result (list Doc) :=
  author_id ← cast_author f;
  if (skip <? 0)%Z then Rejected MongoServerError
  else Resolved (apply_limit limit
                   (drop (Z.to_nat skip)
                      (merge_sort newest_first (matching db f author_id)))).

(** [Post.countDocuments(query)] *)
Definition countDocuments (db : Collection) (f : Filter) : Result Z :=
  author_id ← cast_author f;
  Resolved (Z.of_nat (length (matching db f author_id))).

(** *** GET /api/posts *)

(** The query object, as the handler fills it in. The default of [status]
    is that of the destructuring pattern, which applies to [undefined]
    only. *)
Definition build_query (q : Query) : Result Filter :=
  let status := match q_status q with
                | None => Some "published"
                | Some s => Some s
                end in
  category ← (if JS.truthy (q_category q)
              then Some <$> RegExp_new regexp_ext (default "" (q_category q))
              else Resolved None);
  Resolved (mkFilter
    (if JS.truthy status then status else None)
    category
    (if JS.truthy (q_tags q) then Some (JS.split "," (default "" (q_tags q))) else None)
    (if JS.truthy (q_author q) then q_author q else None)).

Definition page_of (q : Query) : Z := JS.or_default (JS.parseInt (q_page q)) 1.
Definition limit_of (q : Query) : Z := JS.or_default (JS.parseInt (q_limit q)) 10.
Definition skip_of (q : Query) : Z := ((page_of q - 1) * limit_of q)%Z.

Definition list_posts (db : Collection) (q : Query) : Response :=
  let page := page_of q in
  let limit := limit_of q in
  let skip := skip_of q in
  match (query ← build_query q;
         posts ← find db query skip limit;
         total ← countDocuments db query;
         Resolved (posts, total)) with
  | Resolved (posts, total) =>
      mkResponse 200 true None
        (Some (PostList posts (mkPagination page (JS.ceil_div total limit) total)))
  | Rejected e => fail 500 (ErrorMessage e)
  end.

(** *** GET /api/posts/:id *)

Definition get_post (db : Collection) (id : string) : Response * Collection :=
  try_catch db
    (found ← findById db id;
     match found with
     | None => Resolved (fail 404 (Text "Post not found"), db)
     | Some (oid, post) =>
         let post := set_views (views post + 1)%Z post in
         Resolved (mkResponse 200 true None (Some (OnePost (Some (oid, post)))),
                   save db (oid, post))
     end)
    500.

(** *** POST /api/posts *)

Definition split_tags (tags : string) : list string :=
  map JS.trim (JS.split "," tags).

Definition new_Post (env : Env) (user : User) (body : Body) : Doc :=
  (newObjectId env,
   mkPost (b_title body) (b_content body) (b_excerpt body) (b_category body)
          (if JS.truthy (b_status body) then b_status body else Some "draft")
          (if JS.truthy (b_tags body) then split_tags (default "" (b_tags body)) else [])
          (b_featuredImage body)
          (user_id user) 0%Z (now env) [] []).

Definition create_post (env : Env) (db : Collection) (user : User) (body : Body)
  : Response * Collection :=
  try_catch db
    (let post := new_Post env user body in
     db' ← save_new db post;
     Resolved (mkResponse 201 true (Some (Text "Post created successfully"))
                          (Some (OnePost (Some post))),
               db'))
    400.

(** *** PUT /api/posts/:id *)

(** [post.author.toString() !== req.user._id.toString() && req.user.role !== 'admin'] *)
Definition not_authorized (owner : ObjectId) (user : User) : bool :=
  negb (N.eqb owner (user_id user)) && negb (String.eqb (role user) "admin").

Definition update_of (post : Post) (body : Body) : Update :=
  mkUpdate (b_title body) (b_content body) (b_excerpt body)
           (if JS.truthy (b_tags body) then split_tags (default "" (b_tags body))
            else tags post)
           (b_category body) (b_status body) (b_featuredImage body).

Definition update_post (db : Collection) (user : User) (id : string) (body : Body)
  : Response * Collection :=
  try_catch db
    (found ← findById db id;
     match found with
     | None => Resolved (fail 404 (Text "Post not found"), db)
     | Some (_, post) =>
         if not_authorized (author post) user
         then Resolved (fail 403 (Text "Not authorized to update this post"), db)
         else
           '(updatedPost, db') ← findByIdAndUpdate db id (update_of post body);
           Resolved (mkResponse 200 true (Some (Text "Post updated successfully"))
                                (Some (OnePost updatedPost)),
                     db')
     end)
    400.

(** *** DELETE /api/posts/:id *)

Definition delete_post (db : Collection) (user : User) (id : string)
  : Response * Collection :=
  try_catch db
    (found ← findById db id;
     match found with
     | None => Resolved (fail 404 (Text "Post not found"), db)
     | Some (_, post) =>
         if not_authorized (author post) user
         then Resolved (fail 403 (Text "Not authorized to delete this post"), db)
         else
           db' ← findByIdAndDelete db id;
           Resolved (mkResponse 200 true (Some (Text "Post deleted successfully")) None,
                     db')
     end)
    500.

(** *** POST /api/posts/:id/like *)

Definition like_post (db : Collection) (user : User) (id : string)
  : Response * Collection :=
  try_catch db
    (found ← findById db id;
     match found with
     | None => Resolved (fail 404 (Text "Post not found"), db)
     | Some (oid, post) =>
         let likeIndex :=
           JS.findIndex (λ like, N.eqb (like_user like) (user_id user)) (likes post) in
         let post :=
           if (likeIndex >? -1)%Z
           then set_likes (JS.splice1 likeIndex (likes post)) post
           else set_likes (JS.push (likes post) (mkLike (user_id user))) post in
         Resolved (mkResponse 200 true
                     (Some (Text (if (likeIndex >? -1)%Z then "Post unliked" else "Post liked")))
                     (Some (LikeInfo (length (likes post)) (likeIndex =? -1)%Z)),
                   save db (oid, post))
     end)
    500.

(** *** POST /api/posts/:id/comment *)

(** [post.save()] after a comment has been pushed: the new subdocument is
    validated, and the document is written when it is valid. *)
Definition save_comment (db : Collection) (doc : Doc) (c : Comment) : Result Collection :=
  if comment_valid c then Resolved (save db doc) else Rejected ValidationError.

Definition add_comment (env : Env) (db : Collection) (user : User) (id : string)
    (content : option string) : Response * Collection :=
  try_catch db
    (found ← findById db id;
     match found with
     | None => Resolved (fail 404 (Text "Post not found"), db)
     | Some (oid, post) =>
         let newComment := new_Comment env (user_id user) content in
         let post := set_comments (JS.push (comments post) newComment) post in
         db' ← save_comment db (oid, post) newComment;
         Resolved (mkResponse 201 true (Some (Text "Comment added successfully"))
                              (OneComment <$> last (comments post)),
                   db')
     end)
    400.

(** *** DELETE /api/posts/:id/comment/:commentId *)

(** [post.comments.id(commentId)]: the first comment whose [_id] is the
    cast of [commentId]; none when the cast fails. *)
Definition comments_id (cs : list Comment) (commentId : string) : option Comment :=
  List.find (λ c, bool_decide (castObjectId commentId = Some (comment_id c))) cs.

(** [comment.remove()]: the subdocuments with the [_id] of [c] are pulled
    from the array that holds [c]. *)
Definition remove (c : Comment) (cs : list Comment) : list Comment :=
  List.filter (λ c', negb (N.eqb (comment_id c') (comment_id c))) cs.

Definition delete_comment (db : Collection) (user : User) (id commentId : string)
  : Response * Collection :=
  try_catch db
    (found ← findById db id;
     match found with
     | None => Resolved (fail 404 (Text "Post not found"), db)
     | Some (oid, post) =>
         match comments_id (comments post) commentId with
         | None => Resolved (fail 404 (Text "Comment not found"), db)
         | Some comment =>
             if not_authorized (comment_user comment) user
             then Resolved (fail 403 (Text "Not authorized to delete this comment"), db)
             else
               let post := set_comments (remove comment (comments post)) post in
               Resolved (mkResponse 200 true (Some (Text "Comment deleted successfully")) None,
                         save db (oid, post))
         end
     end)
    500.

End Handlers.

(** ** The global error handler

    It answers the errors that reach it; the handlers above catch theirs. *)

Definition globalErrorHandler (err : Error) : Response :=
  match err with
  | ValidationError => fail 400 (Text "Validation Error")
  | CastError => fail 400 (Text "Invalid ID format")
  | _ => fail 500 (ErrorMessage err)
  end.

(** ** utils/validators.js *)

Module Validators.

Record FieldError : Type := mkFieldError { path : string; msg : string }.

(** [body(field).isLength({ min, max })]: an absent field is checked as
    the empty string. The rule counts characters, a surrogate pair as one;
    a string of code units below 256 has no such pair, and its length is
    the number of its code units. *)
Definition isLength (min max : N) (v : option string) : bool :=
  let n := N.of_nat (String.length (default "" v)) in
  (min <=? n)%N && (n <=? max)%N.

Definition rule (ok : bool) (field m : string) : list FieldError :=
  if ok then [] else [mkFieldError field m].

(** [postValidation.create] *)
Definition postValidation_create (b : Body) : list FieldError :=
  rule (isLength 1 200 (b_title b)) "title"
        "Title is required and must be less than 200 characters" ++
  rule (isLength 1 10000 (b_content b)) "content"
        "Content is required and must be less than 10000 characters" ++
  rule (isLength 1 50 (b_category b)) "category"
        "Category is required and must be less than 50 characters" ++
  rule (match b_status b with
         | None => true
         | Some s => bool_decide (s ∈ ["draft"; "published"; "archived"])
         end) "status"
        "Status must be draft, published, or archived".

(** [validate]: 400 when a rule has failed, the next handler otherwise. *)
Definition validate (errors : list FieldError) (db : Collection)
    (next : Response * Collection) : Response * Collection :=
  match errors with
  | [] => next
  | _ => (fail 400 (Text "Validation failed"), db)
  end.

End Validators.

(** The sanitizers of [postValidation.create], which run in their chain
    after the length of the field has been checked: [title] and [category]
    are converted to strings and trimmed; the other fields are left as
    they are. *)
Definition sanitize_create (b : Body) : Body :=
  mkBody (Some (JS.trim (default "" (b_title b)))) (b_content b) (b_excerpt b)
         (b_tags b) (Some (JS.trim (default "" (b_category b)))) (b_status b)
         (b_featuredImage b).

(** ** The category filter, in the words of the specification

    "case-insensitive substring match": the parameter occurs in the
    category of the post, letters compared without regard to case. This
    definition follows the specification, not the handler; the handler's
    filter is [matches] above. *)

Module Spec.

(** The lower-case form of a code unit below 256. *)
Definition toLowerCase (c : ascii) : N :=
  let n := N_of_ascii c in
  if (65 <=? n)%N && (n <=? 90)%N then (n + 32)%N
  else if (192 <=? n)%N && (n <=? 222)%N && negb (n =? 215)%N then (n + 32)%N
  else n.

Fixpoint ci_prefix (p s : string) : bool :=
  match p, s with
  | EmptyString, _ => true
  | String a p', String b s' => (toLowerCase a =? toLowerCase b)%N && ci_prefix p' s'
  | String _ _, EmptyString => false
  end.

Fixpoint ci_substring (p s : string) : bool :=
  ci_prefix p s ||
  match s with
  | String _ s' => ci_substring p s'
  | EmptyString => false
  end.

End Spec.

(** A property of every code unit, decided by trying the 256 of them. *)
Definition all_ascii (f : ascii → bool) : bool :=
  forallb (λ n, f (ascii_of_nat n)) (seq 0 256).

(** ** A concrete instance of the parameters

    A document id written as 24 hexadecimal digits, an engine that rejects
    every pattern outside the interpreted fragment, and the field rules
    of the data model as schema. *)

Module Instance.

Fixpoint hex_value (s : string) (acc : N) : option N :=
  match s with
  | EmptyString => Some acc
  | String c s' =>
      match JS.digit_value c with
      | Some d => if (d <? 16)%Z then hex_value s' (16 * acc + Z.to_N d)%N else None
      | None => None
      end
  end.

Definition castObjectId (s : string) : option ObjectId :=
  if (String.length s =? 24)%nat then hex_value s 0%N else None.

Definition regexp_ext (pattern : string) : option (string → bool) := None.

Definition length_between (min max : N) (v : option string) : bool :=
  match v with
  | Some s =>
      (min <=? N.of_nat (String.length s))%N && (N.of_nat (String.length s) <=? max)%N
  | None => false
  end.

Definition status_ok (v : option string) : bool :=
  match v with
  | Some s => bool_decide (s ∈ ["draft"; "published"; "archived"])
  | None => false
  end.

Definition validatePost (p : Post) : bool :=
  length_between 1 200 (title p) && length_between 1 10000 (content p) &&
  length_between 1 50 (category p) && status_ok (status p).

Definition optional (rule : option string → bool) (v : option string) : bool :=
  match v with
  | Some _ => rule v
  | None => true
  end.

Definition validateUpdate (u : Update) : bool :=
  optional (length_between 1 200) (u_title u) &&
  optional (length_between 1 10000) (u_content u) &&
  optional (length_between 1 50) (u_category u) &&
  optional status_ok (u_status u).

Definition alice : User := mkUser 10%N "user".
Definition bob : User := mkUser 11%N "user".
Definition root : User := mkUser 12%N "admin".

Definition post1 : Post :=
  mkPost (Some "Aquifers") (Some "On recharge rates.") None (Some "Hydrology")
         (Some "published") ["water"; "wells"] None 10%N 3%Z 100%Z
         [mkLike 11%N]
         [mkComment 20%N 11%N (Some "nice") 101%Z; mkComment 21%N 10%N (Some "thanks") 102%Z].

Definition id1 : string := "000000000000000000000001".

Definition comment_id1 : string := "000000000000000000000014".

Definition db1 : Collection := {[ 1%N := post1 ]}.

Definition env1 : Env := mkEnv 200%Z 30%N.

Definition body_empty_tags : Body :=
  mkBody (Some "Springs") (Some "Notes on springs.") None (Some "") (Some "Hydrology")
         None None.

Definition body_blank_title : Body :=
  mkBody (Some "   ") (Some "Notes on springs.") None None (Some "Hydrology") None None.

Definition body_new : Body :=
  mkBody (Some "Springs") (Some "Notes on springs.") None (Some " karst , springs")
         (Some "Hydrology") None None.

(** Twelve published posts and a draft. *)
Definition post_n (n : nat) : Post :=
  mkPost (Some "Well log") (Some "Levels.") None (Some "Hydrology")
         (Some (if (n <=? 12)%nat then "published" else "draft")) [] None 10%N 0%Z
         (Z.of_nat n) [] [].

Definition db13 : Collection :=
  list_to_map (map (λ n, (N.of_nat n, post_n n)) (seq 1 13)).

Definition page2 : Query := mkQuery (Some "2") (Some "5") None None None None.

Definition page3 : Query := mkQuery (Some "3") (Some "5") None None None None.

Definition every_status : Query := mkQuery None (Some "50") None None (Some "") None.

Definition any_status : Query := mkQuery None None None None (Some "") None.

Definition new_id : string := "00000000000000000000001e".

Definition body1 : Body :=
  mkBody (Some "Aquifers, revised") None None (Some "rivers , lakes") None None None.

End Instance.

(** * Properties *)

(** ** The built-ins *)

Section BuiltIns.

Lemma split_nonempty sep s : JS.split sep s ≠ [].
Proof.
  destruct s as [|c s]; simpl; [done|].
  destruct (Ascii.eqb c sep); [done|].
  by destruct (JS.split sep s).
Qed.

(** Joining the pieces with the separator gives the string back. *)
Lemma join_split sep s : JS.join sep (JS.split sep s) = s.
Proof.
  induction s as [|c s IH]; simpl; [done|].
  destruct (Ascii.eqb_spec c sep) as [->|Hne].
  - pose proof (split_nonempty sep s) as Hne.
    destruct (JS.split sep s) as [|p ps]; [done|].
    simpl in *. by rewrite IH.
  - pose proof (split_nonempty sep s) as Hne'.
    destruct (JS.split sep s) as [|p ps]; [done|].
    destruct ps as [|p' ps]; simpl in *; by rewrite <- IH.
Qed.

(** No piece holds the separator. *)
Lemma split_no_separator sep s :
  Forall (λ piece, JS.contains_char sep piece = false) (JS.split sep s).
Proof.
  induction s as [|c s IH]; simpl.
  - by constructor.
  - destruct (Ascii.eqb_spec c sep) as [->|Hne].
    + by constructor.
    + destruct (JS.split sep s) as [|p ps]; simpl.
      * constructor; [|done]. simpl.
        destruct (Ascii.eqb_spec c sep); [done|]. done.
      * inversion IH; subst. constructor; [|done]. simpl.
        destruct (Ascii.eqb_spec c sep); [done|]. done.
Qed.

Example split_examples :
  JS.split "," "a, b,,c " = ["a"; " b"; ""; "c "] ∧ JS.split "," "" = [""] ∧
  JS.split "," "," = [""; ""].
Proof. repeat split; reflexivity. Qed.

Example trim_examples :
  JS.trim "  deep well  " = "deep well" ∧ JS.trim "   " = "" ∧ JS.trim "a" = "a".
Proof. repeat split; reflexivity. Qed.

Example parseInt_examples :
  JS.parseInt (Some "2") = Some 2%Z ∧ JS.parseInt (Some " 12px") = Some 12%Z ∧
  JS.parseInt (Some "-7") = Some (-7)%Z ∧ JS.parseInt (Some "0x1f") = Some 31%Z ∧
  JS.parseInt (Some "abc") = None ∧ JS.parseInt (Some "") = None ∧
  JS.parseInt None = None ∧ JS.parseInt (Some "0") = Some 0%Z.
Proof. repeat split; reflexivity. Qed.

Example findIndex_examples :
  JS.findIndex (Nat.eqb 3) [1; 3; 3] = 1%Z ∧ JS.findIndex (Nat.eqb 4) [1; 3; 3] = (-1)%Z.
Proof. split; reflexivity. Qed.

(** What [trimStart] leaves does not start with white space. *)
Lemma trimStart_head (s : string) c t : JS.trimStart s = String c t → JS.isWhiteSpace c = false.
Proof.
  induction s as [|d s IH]; simpl; [done|].
  destruct (JS.isWhiteSpace d) eqn:Hd; [done|]. by intros [= <- _].
Qed.

(** [trimEnd] keeps the start of the string. *)
Lemma trimEnd_head c (t : string) :
  JS.isWhiteSpace c = false → ∃ t', JS.trimEnd (String c t) = String c t'.
Proof.
  intros Hc. simpl. destruct (JS.trimEnd t); [rewrite Hc|]; eauto.
Qed.

(** Trimming the end twice is trimming it once. *)
Lemma trimEnd_idempotent (s : string) : JS.trimEnd (JS.trimEnd s) = JS.trimEnd s.
Proof.
  induction s as [|c s IH]; simpl; [done|].
  destruct (JS.trimEnd s) as [|d t] eqn:E.
  - destruct (JS.isWhiteSpace c) eqn:Hc; simpl; [done|]. by rewrite Hc.
  - simpl in *. by rewrite IH.
Qed.

Lemma findIndex_ge {A} (p : A → bool) xs : (-1 ≤ JS.findIndex p xs)%Z.
Proof.
  induction xs as [|x xs IH]; simpl; [lia|].
  destruct (p x); [lia|].
  destruct (Z.ltb_spec (JS.findIndex p xs) 0); lia.
Qed.

(** -1 is returned exactly when no element satisfies the predicate. *)
Lemma findIndex_none {A} (p : A → bool) xs :
  JS.findIndex p xs = (-1)%Z ↔ Forall (λ x, p x = false) xs.
Proof.
  induction xs as [|x xs IH]; simpl.
  - split; [by constructor|done].
  - destruct (p x) eqn:Hp.
    + split; [lia|]. inversion 1; congruence.
    + pose proof (findIndex_ge p xs).
      destruct (Z.ltb_spec (JS.findIndex p xs) 0).
      * split; [|done]. intros _. constructor; [done|]. apply IH. lia.
      * split; [lia|]. inversion 1; subst. apply IH in H5. lia.
Qed.

(** Otherwise the index is that of the first element that satisfies it. *)
Lemma findIndex_found {A} (p : A → bool) xs :
  (JS.findIndex p xs ≠ -1)%Z →
  ∃ x, xs !! Z.to_nat (JS.findIndex p xs) = Some x ∧ p x = true ∧
       Forall (λ y, p y = false) (take (Z.to_nat (JS.findIndex p xs)) xs).
Proof.
  induction xs as [|x xs IH]; simpl; [done|].
  destruct (p x) eqn:Hp.
  - intros _. exists x. simpl. split; [done|]. split; [done|]. constructor.
  - pose proof (findIndex_ge p xs).
    destruct (Z.ltb_spec (JS.findIndex p xs) 0); [done|].
    intros _. destruct IH as (y & Hy & Hpy & Hbefore); [lia|].
    exists y. replace (Z.to_nat (JS.findIndex p xs + 1)) with (S (Z.to_nat (JS.findIndex p xs))) by lia.
    simpl. split; [done|]. split; [done|]. by constructor.
Qed.


Lemma ceil_div_neg a b :
  (b < 0)%Z → (b * JS.ceil_div a b ≤ a < b * (JS.ceil_div a b - 1))%Z.
Proof.
  intros Hb. unfold JS.ceil_div.
  pose proof (Z.div_mod (- a) b ltac:(lia)) as Hdm.
  pose proof (Z.mod_neg_bound (- a) b Hb). nia.
Qed.


End BuiltIns.

(** ** Authorization of PUT and DELETE on a post *)

Section Authorization.

Variable castObjectId : string → option ObjectId.
Variable validateUpdate : Update → bool.

Lemma not_authorized_true owner user :
  not_authorized owner user = true ↔ owner ≠ user_id user ∧ role user ≠ "admin".
Proof.
  unfold not_authorized. rewrite andb_true_iff, !negb_true_iff.
  rewrite N.eqb_neq, String.eqb_neq. done.
Qed.

Lemma not_authorized_false owner user :
  not_authorized owner user = false ↔ owner = user_id user ∨ role user = "admin".
Proof.
  unfold not_authorized. rewrite andb_false_iff, !negb_false_iff.
  rewrite N.eqb_eq, String.eqb_eq. done.
Qed.

Lemma findById_found (db : Collection) id oid post :
  castObjectId id = Some oid → db !! oid = Some post →
  findById castObjectId db id = Resolved (Some (oid, post)).
Proof. intros Hc Hl. unfold findById. by rewrite Hc, Hl. Qed.

Lemma findById_missing (db : Collection) id oid :
  castObjectId id = Some oid → db !! oid = None →
  findById castObjectId db id = Resolved None.
Proof. intros Hc Hl. unfold findById. by rewrite Hc, Hl. Qed.

Lemma findById_malformed (db : Collection) id :
  castObjectId id = None → findById castObjectId db id = Rejected CastError.
Proof. intros Hc. unfold findById. by rewrite Hc. Qed.

(** A request without a user is answered 401 before its handler runs. *)
Lemma auth_rejects_anonymous (db : Collection) handler :
  auth None db handler = (fail 401 (Text "Unauthorized"), db).
Proof. done. Qed.

Lemma auth_runs_handler (db : Collection) user handler :
  auth (Some user) db handler = handler user.
Proof. done. Qed.

(** C1. On an existing post, PUT and DELETE by a requester who is
    neither the author nor an admin answer 403 and leave the collection,
    hence the post with its fields, comments and likes, as it was. For
    the author or an admin the mutation goes through: DELETE answers 200
    and removes the post; PUT is never answered 403, and answers 200 with
    the update applied whenever the schema accepts the update. *)
Theorem put_delete_authorization (db : Collection) user id oid post body :
  castObjectId id = Some oid →
  db !! oid = Some post →
  (author post ≠ user_id user ∧ role user ≠ "admin" →
     statusCode (update_post castObjectId validateUpdate db user id body).1 = 403 ∧
     (update_post castObjectId validateUpdate db user id body).2 = db ∧
     statusCode (delete_post castObjectId db user id).1 = 403 ∧
     (delete_post castObjectId db user id).2 = db) ∧
  (author post = user_id user ∨ role user = "admin" →
     statusCode (update_post castObjectId validateUpdate db user id body).1 ≠ 403 ∧
     (validateUpdate (update_of post body) = true →
        statusCode (update_post castObjectId validateUpdate db user id body).1 = 200 ∧
        (update_post castObjectId validateUpdate db user id body).2
          = <[oid := apply_update (update_of post body) post]> db) ∧
     statusCode (delete_post castObjectId db user id).1 = 200 ∧
     (delete_post castObjectId db user id).2 = delete oid db).
Proof.
  intros Hcast Hpost.
  unfold update_post, delete_post.
  rewrite (findById_found _ _ _ _ Hcast Hpost). simpl.
  split.
  - intros Hno. apply not_authorized_true in Hno. rewrite Hno. simpl. done.
  - intros Hyes. apply not_authorized_false in Hyes. rewrite Hyes.
    unfold findByIdAndUpdate, findByIdAndDelete. rewrite Hcast, Hpost. simpl.
    destruct (validateUpdate (update_of post body)); simpl; repeat split; try done.
Qed.

End Authorization.

(** ** The like toggle *)

Section Likes.

Variable castObjectId : string → option ObjectId.

Local Abbreviation likes_user u := (λ like : Like, N.eqb (like_user like) u).

Lemma likes_user_true u like : likes_user u like = true ↔ like = mkLike u.
Proof.
  rewrite N.eqb_eq. destruct like as [v]. simpl.
  split; [by intros ->|by inversion 1].
Qed.

Lemma findIndex_absent u (ls : list Like) :
  mkLike u ∉ ls ↔ JS.findIndex (likes_user u) ls = (-1)%Z.
Proof.
  rewrite findIndex_none, Forall_forall. split.
  - intros Hnot x Hx. destruct (likes_user u x) eqn:E; [|done].
    apply likes_user_true in E. subst. done.
  - intros Hall Hin. apply Hall in Hin. simpl in Hin.
    by rewrite N.eqb_refl in Hin.
Qed.

Lemma findIndex_present u (ls : list Like) :
  mkLike u ∈ ls →
  (0 ≤ JS.findIndex (likes_user u) ls)%Z ∧
  ls !! Z.to_nat (JS.findIndex (likes_user u) ls) = Some (mkLike u).
Proof.
  intros Hin. pose proof (findIndex_ge (likes_user u) ls) as Hge.
  assert (JS.findIndex (likes_user u) ls ≠ (-1)%Z) as Hne.
  { intros E. by apply findIndex_absent in E. }
  split; [lia|].
  destruct (findIndex_found _ _ Hne) as (x & Hx & Hp & _).
  apply likes_user_true in Hp. by subst.
Qed.

(** With one entry per user, the entry removed was the user's only one. *)
Lemma findIndex_after_unlike u (ls : list Like) i :
  NoDup ls → ls !! i = Some (mkLike u) →
  JS.findIndex (likes_user u) (delete i ls) = (-1)%Z.
Proof.
  intros Hnd Hi. apply findIndex_absent. intros Hin.
  apply list_elem_of_lookup in Hin as [j Hj].
  destruct (decide (j < i)%nat) as [Hlt|Hge].
  - rewrite list_lookup_delete_lt in Hj by done.
    pose proof (NoDup_lookup _ _ _ _ Hnd Hj Hi). lia.
  - rewrite list_lookup_delete_ge in Hj by lia.
    pose proof (NoDup_lookup _ _ _ _ Hnd Hj Hi). lia.
Qed.

Lemma findIndex_after_like u (ls : list Like) :
  mkLike u ∉ ls →
  JS.findIndex (likes_user u) (ls ++ [mkLike u]) = Z.of_nat (length ls).
Proof.
  intros Hnot. apply findIndex_absent in Hnot. rewrite findIndex_none in Hnot.
  induction Hnot as [|x xs Hx Hxs IH]; simpl.
  - by rewrite N.eqb_refl.
  - rewrite Hx, IH. destruct (Z.ltb_spec (Z.of_nat (length xs)) 0); lia.
Qed.

Lemma delete_last_pushed {A} (xs : list A) x : delete (length xs) (xs ++ [x]) = xs.
Proof. induction xs as [|y xs IH]; simpl; [done|]. by rewrite IH. Qed.

Lemma like_post_found (db : Collection) user id oid post :
  castObjectId id = Some oid → db !! oid = Some post →
  like_post castObjectId db user id =
    (mkResponse 200 true
       (Some (Text (if (JS.findIndex (likes_user (user_id user)) (likes post) >? -1)%Z
                    then "Post unliked" else "Post liked")))
       (Some (LikeInfo
          (length (if (JS.findIndex (likes_user (user_id user)) (likes post) >? -1)%Z
                   then JS.splice1 (JS.findIndex (likes_user (user_id user)) (likes post))
                                   (likes post)
                   else JS.push (likes post) (mkLike (user_id user))))
          (JS.findIndex (likes_user (user_id user)) (likes post) =? -1)%Z)),
     <[oid := set_likes
                (if (JS.findIndex (likes_user (user_id user)) (likes post) >? -1)%Z
                 then JS.splice1 (JS.findIndex (likes_user (user_id user)) (likes post))
                                 (likes post)
                 else JS.push (likes post) (mkLike (user_id user)))
                post]> db).
Proof.
  intros Hcast Hpost. unfold like_post.
  rewrite (findById_found _ _ _ _ _ Hcast Hpost). simpl.
  by destruct (JS.findIndex _ (likes post) >? -1)%Z.
Qed.

(** The toggle keeps one entry per user. *)
Lemma like_post_keeps_likes_distinct (db : Collection) user id oid post :
  castObjectId id = Some oid → db !! oid = Some post →
  NoDup (likes post) →
  ∃ post1, (like_post castObjectId db user id).2 !! oid = Some post1 ∧
           NoDup (likes post1).
Proof.
  intros Hcast Hpost Hnd. rewrite (like_post_found db user id oid post Hcast Hpost).
  simpl. rewrite lookup_insert_eq. eexists. split; [done|]. simpl.
  destruct (Z.gtb_spec (JS.findIndex (likes_user (user_id user)) (likes post)) (-1))
    as [Hfound|Hnone].
  - unfold JS.splice1. eapply sublist_NoDup; [done|apply sublist_delete].
  - unfold JS.push. apply NoDup_app. split; [done|]. split; [|apply NoDup_singleton].
    intros x Hx. rewrite list_elem_of_singleton. intros ->.
    revert Hx. apply findIndex_absent.
    pose proof (findIndex_ge (likes_user (user_id user)) (likes post)). lia.
Qed.

Lemma set_likes_set_likes l l' p : set_likes l (set_likes l' p) = set_likes l p.
Proof. done. Qed.

(** C2. The like toggle on an existing post. If the requester has a
    like entry, the first such entry is removed and [isLiked] is false;
    otherwise an entry is appended and [isLiked] is true; in both cases
    [likes] is the number of entries after the toggle and nothing else in
    the post changes. When the likes hold one entry per user (the
    invariant of the data model), a second toggle by the same user gives
    back the original likes as a set (the same entries, up to order), and
    its response reports the original count and the original [isLiked]. *)
Theorem like_toggle (db : Collection) user id oid post :
  castObjectId id = Some oid →
  db !! oid = Some post →
  ∃ post1,
    (like_post castObjectId db user id).2 = <[oid := post1]> db ∧
    post1 = set_likes (likes post1) post ∧
    statusCode (like_post castObjectId db user id).1 = 200 ∧
    (mkLike (user_id user) ∈ likes post →
       ∃ i, likes post !! i = Some (mkLike (user_id user)) ∧
            likes post1 = delete i (likes post) ∧
            data (like_post castObjectId db user id).1
              = Some (LikeInfo (length (likes post1)) false)) ∧
    (mkLike (user_id user) ∉ likes post →
       likes post1 = likes post ++ [mkLike (user_id user)] ∧
       data (like_post castObjectId db user id).1
         = Some (LikeInfo (length (likes post1)) true)) ∧
    (NoDup (likes post) →
       ∃ post2,
         (like_post castObjectId (like_post castObjectId db user id).2 user id).2
           = <[oid := post2]> db ∧
         post2 = set_likes (likes post2) post ∧
         likes post2 ≡ₚ likes post ∧
         data (like_post castObjectId (like_post castObjectId db user id).2 user id).1
           = Some (LikeInfo (length (likes post))
                            (bool_decide (mkLike (user_id user) ∈ likes post)))).
Proof.
  intros Hcast Hpost.
  rewrite (like_post_found db user id oid post Hcast Hpost).
  set (u := user_id user). set (ls := likes post).
  destruct (decide (mkLike u ∈ ls)) as [Hin|Hnot].
  - (* the requester has a like entry: it is removed *)
    destruct (findIndex_present u ls Hin) as [Hge Hi].
    set (i := JS.findIndex (likes_user u) ls) in *.
    assert ((i >? -1)%Z = true) as Hgt by (apply Z.gtb_lt; lia).
    assert ((i =? -1)%Z = false) as Hneq by (apply Z.eqb_neq; lia).
    rewrite Hgt, Hneq. unfold JS.splice1.
    exists (set_likes (delete (Z.to_nat i) ls) post). simpl.
    repeat split; try done.
    + intros _. exists (Z.to_nat i). done.
    + intros Hdup.
      assert (<[oid := set_likes (delete (Z.to_nat i) ls) post]> db !! oid
              = Some (set_likes (delete (Z.to_nat i) ls) post)) as Hpost1
        by apply lookup_insert_eq.
      rewrite (like_post_found _ user id oid _ Hcast Hpost1). simpl.
      fold u. rewrite (findIndex_after_unlike u ls _ Hdup Hi). simpl.
      exists (set_likes (JS.push (delete (Z.to_nat i) ls) (mkLike u)) post).
      rewrite insert_insert_eq. simpl. unfold JS.push.
      repeat split; try done.
      * rewrite (delete_Permutation ls (Z.to_nat i) (mkLike u) Hi) at 2.
        by rewrite Permutation_app_comm.
      * rewrite length_app, length_delete by (rewrite Hi; eauto). simpl.
        apply lookup_lt_Some in Hi. fold ls in Hi.
        rewrite bool_decide_eq_true_2 by done.
        do 2 f_equal. lia.
  - (* the requester has none: one is appended *)
    pose proof (proj1 (findIndex_absent u ls) Hnot) as Hidx.
    rewrite Hidx. simpl. unfold JS.push.
    exists (set_likes (ls ++ [mkLike u]) post). simpl.
    repeat split; try done.
    intros _.
    assert (<[oid := set_likes (ls ++ [mkLike u]) post]> db !! oid
            = Some (set_likes (ls ++ [mkLike u]) post)) as Hpost1
      by apply lookup_insert_eq.
    rewrite (like_post_found _ user id oid _ Hcast Hpost1). simpl.
    fold u. rewrite (findIndex_after_like u ls Hnot).
    assert ((Z.of_nat (length ls) >? -1)%Z = true) as Hgt by (apply Z.gtb_lt; lia).
    assert ((Z.of_nat (length ls) =? -1)%Z = false) as Hneq by (apply Z.eqb_neq; lia).
    rewrite Hgt, Hneq. unfold JS.splice1. rewrite Nat2Z.id, delete_last_pushed.
    exists (set_likes ls post). rewrite insert_insert_eq. simpl.
    repeat split; try done.
    by rewrite bool_decide_eq_false_2.
Qed.

End Likes.

(** ** Listing: pagination and filters *)

Section Listing.

Variable castObjectId : string → option ObjectId.
Variable regexp_ext : string → option (string → bool).

Local Abbreviation buildQuery := (build_query regexp_ext).
Local Abbreviation castAuthor := (cast_author castObjectId).
Local Abbreviation GET_posts := (list_posts castObjectId regexp_ext).

Lemma or_default_nonzero x d : d ≠ 0%Z → JS.or_default x d ≠ 0%Z.
Proof.
  intros Hd. destruct x as [n|]; simpl; [|done].
  destruct (Z.eqb_spec n 0); done.
Qed.

Lemma limit_of_nonzero q : limit_of q ≠ 0%Z.
Proof. by apply or_default_nonzero. Qed.

Lemma page_of_nonzero q : page_of q ≠ 0%Z.
Proof. by apply or_default_nonzero. Qed.

(** The response of a request whose query is built and cast without an
    error and whose [skip] is not negative. *)
Lemma list_posts_ok (db : Collection) q f a :
  buildQuery q = Resolved f → castAuthor f = Resolved a → (0 ≤ skip_of q)%Z →
  GET_posts db q =
    mkResponse 200 true None
      (Some (PostList
         (apply_limit (limit_of q)
            (drop (Z.to_nat (skip_of q)) (merge_sort newest_first (matching db f a))))
         (mkPagination (page_of q)
            (JS.ceil_div (Z.of_nat (length (matching db f a))) (limit_of q))
            (Z.of_nat (length (matching db f a)))))).
Proof.
  intros Hq Ha Hskip. unfold list_posts.
  rewrite Hq. simpl. unfold find, countDocuments. rewrite Ha. simpl.
  destruct (Z.ltb_spec (skip_of q) 0); [lia|]. done.
Qed.

(** Every other request is answered 500. *)
Lemma list_posts_error (db : Collection) q :
  (∀ f a, buildQuery q = Resolved f → castAuthor f = Resolved a → (skip_of q < 0)%Z) →
  statusCode (GET_posts db q) = 500 ∧ data (GET_posts db q) = None.
Proof.
  intros Hno. unfold list_posts.
  destruct (buildQuery q) as [f|e] eqn:Hq; simpl; [|done].
  unfold find, countDocuments.
  destruct (castAuthor f) as [a|e] eqn:Ha; simpl; [|done].
  specialize (Hno f a eq_refl Ha).
  destruct (Z.ltb_spec (skip_of q) 0); [|lia]. done.
Qed.


Lemma length_merge_sort (docs : list Doc) :
  length (merge_sort newest_first docs) = length docs.
Proof. apply Permutation_length, merge_sort_Permutation. Qed.



(** *** The status filter *)

Lemma build_query_status q f :
  buildQuery q = Resolved f →
  f_status f = match q_status q with
               | None => Some "published"
               | Some EmptyString => None
               | Some s => Some s
               end.
Proof.
  unfold build_query. intros Hq.
  destruct (if JS.truthy (q_category q) then _ else _) as [r|e]; simpl in Hq; [|done].
  injection Hq as <-. simpl.
  by destruct (q_status q) as [[|c s]|].
Qed.

(** A filter on the status is applied as an equality. *)
Lemma matches_status f a p s :
  f_status f = Some s → matches f a p = true → status p = Some s.
Proof.
  unfold matches. intros ->. rewrite !andb_true_iff.
  intros [[[Hs _] _] _]. by apply bool_decide_eq_true in Hs.
Qed.

End Listing.

(** ** The category filter *)

Section CategoryFilter.

Variable castObjectId : string → option ObjectId.
Variable regexp_ext : string → option (string → bool).

Lemma all_ascii_spec f : all_ascii f = true → ∀ c, f c = true.
Proof.
  intros Hall c. unfold all_ascii in Hall.
  rewrite forallb_forall in Hall.
  rewrite <- (ascii_nat_embedding c). apply Hall. apply in_seq.
  pose proof (nat_ascii_bounded c). lia.
Qed.

(** The two ways of ignoring case agree on every pair of code units. *)
Lemma canonicalize_toLowerCase c d :
  (RegExp.canonicalize c =? RegExp.canonicalize d)%N
  = (Spec.toLowerCase c =? Spec.toLowerCase d)%N.
Proof.
  apply Bool.eqb_prop. revert d. apply all_ascii_spec.
  revert c. apply (all_ascii_spec (λ c, all_ascii (λ d,
    Bool.eqb (RegExp.canonicalize c =? RegExp.canonicalize d)%N
             (Spec.toLowerCase c =? Spec.toLowerCase d)%N))).
  vm_compute. reflexivity.
Qed.

Lemma parse_literal pattern :
  RegExp.isLiteral pattern = true →
  ∃ atoms, RegExp.parse pattern = Some atoms ∧
           ∀ s, RegExp.match_here atoms s = Spec.ci_prefix pattern s.
Proof.
  induction pattern as [|c rest IH]; simpl.
  - intros _. exists []. split; [done|]. by intros [].
  - rewrite andb_true_iff, negb_true_iff. intros [Hc Hrest].
    destruct (IH Hrest) as (atoms & Hparse & Hmatch).
    assert (Ascii.eqb c "." = false) as Hdot.
    { destruct (Ascii.eqb_spec c "."); [subst; done|done]. }
    rewrite Hdot, Hc, Hparse. simpl.
    exists (RegExp.Lit c :: atoms). split; [done|].
    intros [|d s]; simpl; [done|].
    by rewrite canonicalize_toLowerCase, Hmatch.
Qed.

Lemma search_literal atoms pattern :
  (∀ s, RegExp.match_here atoms s = Spec.ci_prefix pattern s) →
  ∀ s, RegExp.search atoms s = Spec.ci_substring pattern s.
Proof.
  intros Hhere s. induction s as [|c s IH].
  - simpl. by rewrite Hhere.
  - cbn [RegExp.search Spec.ci_substring]. by rewrite Hhere, IH.
Qed.

(** On a parameter without a syntax character, the filter that the
    handler builds is the case-insensitive substring match. *)
Lemma literal_category_filter q c f :
  q_category q = Some c → c ≠ "" → RegExp.isLiteral c = true →
  build_query regexp_ext q = Resolved f →
  ∃ r, f_category f = Some r ∧ ∀ s, RegExp.test r s = Spec.ci_substring c s.
Proof.
  intros Hc Hne Hlit. unfold build_query. rewrite Hc.
  assert (JS.truthy (Some c) = true) as -> by (by destruct c).
  destruct (parse_literal c Hlit) as (atoms & Hparse & Hmatch).
  unfold RegExp_new. simpl. rewrite Hparse. simpl.
  intros Hf. injection Hf as <-. simpl.
  exists (RegExp.Fragment atoms). split; [done|].
  intros s. simpl. by apply search_literal.
Qed.

(** C6, at the parameter [.]: the handler's filter takes the parameter
    for a pattern. The category Hydrology does not contain a full stop,
    yet the post matches the filter built from [category=.] and the
    request lists it. *)
Theorem category_filter_takes_a_pattern :
  Spec.ci_substring "." "Hydrology" = false ∧
  category Instance.post1 = Some "Hydrology" ∧
  (∃ f, build_query regexp_ext (mkQuery None None (Some ".") None None None)
          = Resolved f ∧
        matches f None Instance.post1 = true) ∧
  ∃ pg, list_posts castObjectId regexp_ext Instance.db1
          (mkQuery None None (Some ".") None None None)
        = mkResponse 200 true None (Some (PostList [(1%N, Instance.post1)] pg)).
Proof.
  split; [reflexivity|]. split; [reflexivity|]. split.
  - eexists. split; [reflexivity|]. vm_compute. reflexivity.
  - eexists. vm_compute. reflexivity.
Qed.

End CategoryFilter.

(** ** Comments *)

Section Comments.

Variable castObjectId : string → option ObjectId.

(** C8. Adding a comment to an existing post. Without a content, or
    with the empty string, the request fails with 400 and the collection
    is as it was: no comment is appended. With a non-empty content it
    answers 201 with the new comment, whose user is the requester, whose
    content is the one sent, whose date is the time of the request and
    whose id is the generated one; the post keeps its comments in order,
    the new one after them, and nothing else in it changes. *)
Theorem add_comment_requires_content env (db : Collection) user id oid post content :
  castObjectId id = Some oid →
  db !! oid = Some post →
  (content = None ∨ content = Some "" →
     statusCode (add_comment castObjectId env db user id content).1 = 400 ∧
     success (add_comment castObjectId env db user id content).1 = false ∧
     (add_comment castObjectId env db user id content).2 = db) ∧
  (∀ s, content = Some s → s ≠ "" →
     add_comment castObjectId env db user id content =
       (mkResponse 201 true (Some (Text "Comment added successfully"))
          (Some (OneComment (mkComment (newObjectId env) (user_id user) (Some s) (now env)))),
        <[oid := set_comments
                   (comments post ++
                      [mkComment (newObjectId env) (user_id user) (Some s) (now env)])
                   post]> db)).
Proof.
  intros Hcast Hpost. unfold add_comment.
  rewrite (findById_found _ _ _ _ _ Hcast Hpost). simpl.
  unfold save_comment, comment_valid, new_Comment. simpl. split.
  - by intros [-> | ->].
  - intros s -> Hne. apply String.eqb_neq in Hne. rewrite Hne. simpl.
    unfold JS.push. by rewrite last_snoc.
Qed.

Lemma comments_id_unique (cs : list Comment) commentId c :
  castObjectId commentId = Some (comment_id c) →
  NoDup (comment_id <$> cs) → c ∈ cs →
  comments_id castObjectId cs commentId = Some c.
Proof.
  intros Hcast. unfold comments_id. rewrite Hcast.
  induction cs as [|x cs IH]; intros Hnd Hin.
  - by apply elem_of_nil in Hin.
  - rewrite fmap_cons in Hnd. apply NoDup_cons in Hnd as [Hx Hnd].
    apply elem_of_cons in Hin as [->|Hin]; simpl.
    + by rewrite bool_decide_eq_true_2.
    + rewrite bool_decide_eq_false_2; [by apply IH|].
      intros [= E]. apply Hx. rewrite <- E. by apply list_elem_of_fmap_2.
Qed.

Lemma remove_absent (cs : list Comment) c :
  comment_id c ∉ comment_id <$> cs → remove c cs = cs.
Proof.
  unfold remove. induction cs as [|x cs IH]; simpl; [done|].
  rewrite not_elem_of_cons. intros [Hne Hnot].
  destruct (N.eqb_spec (comment_id x) (comment_id c)); [congruence|].
  simpl. by rewrite IH.
Qed.

(** With one comment per id, pulling the id of a comment deletes that
    comment and no other. *)
Lemma remove_unique (cs : list Comment) c i :
  NoDup (comment_id <$> cs) → cs !! i = Some c → remove c cs = delete i cs.
Proof.
  revert i. induction cs as [|x cs IH]; intros i Hnd Hi; [done|].
  rewrite fmap_cons in Hnd. apply NoDup_cons in Hnd as [Hx Hnd].
  destruct i as [|i]; simpl in Hi.
  - injection Hi as ->. unfold remove. simpl. rewrite N.eqb_refl. simpl.
    by apply remove_absent.
  - unfold remove. simpl.
    destruct (N.eqb_spec (comment_id x) (comment_id c)) as [E|_].
    + exfalso. apply Hx. rewrite E.
      apply list_elem_of_fmap_2. by apply list_elem_of_lookup_2 in Hi.
    + simpl. f_equal. by apply IH.
Qed.

(** C9. Deleting a comment of an existing post, by its author or an
    admin: the request answers 200, and the comments of the post are the
    original sequence with that one element deleted, the others in their
    order; nothing else in the post changes. The comments of a post have
    distinct ids (the invariant of the data model). *)
Theorem delete_comment_removes_one (db : Collection) user id commentId oid post c :
  castObjectId id = Some oid →
  db !! oid = Some post →
  castObjectId commentId = Some (comment_id c) →
  c ∈ comments post →
  comment_user c = user_id user ∨ role user = "admin" →
  NoDup (comment_id <$> comments post) →
  ∃ i, comments post !! i = Some c ∧
       delete_comment castObjectId db user id commentId =
         (mkResponse 200 true (Some (Text "Comment deleted successfully")) None,
          <[oid := set_comments (delete i (comments post)) post]> db).
Proof.
  intros Hcast Hpost Hcid Hin Hauth Hnd.
  apply list_elem_of_lookup in Hin as Hi. destruct Hi as [i Hi].
  exists i. split; [done|].
  unfold delete_comment. rewrite (findById_found _ _ _ _ _ Hcast Hpost). simpl.
  rewrite (comments_id_unique _ _ _ Hcid Hnd Hin).
  apply not_authorized_false in Hauth. rewrite Hauth. simpl.
  by rewrite (remove_unique _ _ _ Hnd Hi).
Qed.

(** The refusals of the same request. *)
Lemma delete_comment_refused (db : Collection) user id commentId oid post :
  castObjectId id = Some oid →
  db !! oid = Some post →
  (comments_id castObjectId (comments post) commentId = None →
     delete_comment castObjectId db user id commentId
       = (fail 404 (Text "Comment not found"), db)) ∧
  (∀ c, comments_id castObjectId (comments post) commentId = Some c →
        comment_user c ≠ user_id user ∧ role user ≠ "admin" →
        delete_comment castObjectId db user id commentId
          = (fail 403 (Text "Not authorized to delete this comment"), db)).
Proof.
  intros Hcast Hpost. unfold delete_comment.
  rewrite (findById_found _ _ _ _ _ Hcast Hpost). simpl. split.
  - by intros ->.
  - intros c -> Hno. apply not_authorized_true in Hno. by rewrite Hno.
Qed.

(** A generated id that no comment of the post bears keeps the ids distinct. *)
Lemma add_comment_keeps_ids_distinct env (cs : list Comment) user content :
  NoDup (comment_id <$> cs) → newObjectId env ∉ comment_id <$> cs →
  NoDup (comment_id <$> JS.push cs (new_Comment env user content)).
Proof.
  intros Hnd Hfresh. unfold JS.push. rewrite fmap_app. simpl.
  apply NoDup_app. split; [done|]. split.
  - intros x Hx. rewrite list_elem_of_singleton. by intros ->.
  - apply NoDup_singleton.
Qed.

End Comments.

(** ** Creating and updating a post *)

Section CreateUpdate.

Variable castObjectId : string → option ObjectId.
Variable validatePost : Post → bool.
Variable validateUpdate : Update → bool.

Lemma truthy_Some t : JS.truthy (Some t) = negb (String.eqb t "").
Proof. by destruct t. Qed.

(** C5, as the handler has it. A create input that the schema accepts
    is answered 201 and the post is stored under the generated id. Its
    tags are the pieces of the input string between commas, each trimmed,
    when the string is not empty, and the empty sequence when [tags] is
    absent or the empty string; its status is draft when none is sent (or
    an empty one); its author is the requester. *)
Theorem create_post_tags env (db : Collection) user body :
  validatePost (new_Post env user body).2 = true →
  db !! newObjectId env = None →
  ∃ post,
    create_post validatePost env db user body =
      (mkResponse 201 true (Some (Text "Post created successfully"))
         (Some (OnePost (Some (newObjectId env, post)))),
       <[newObjectId env := post]> db) ∧
    tags post = match b_tags body with
                | Some t => if String.eqb t "" then [] else map JS.trim (JS.split "," t)
                | None => []
                end ∧
    (JS.truthy (b_status body) = false → status post = Some "draft") ∧
    (JS.truthy (b_status body) = true → status post = b_status body) ∧
    author post = user_id user.
Proof.
  intros Hvalid Hfresh. exists (new_Post env user body).2.
  unfold create_post, save_new. rewrite Hvalid. simpl. rewrite Hfresh. simpl.
  split; [done|]. split.
  - destruct (b_tags body) as [t|]; [|done].
    rewrite truthy_Some. by destruct (String.eqb t "").
  - repeat split; by intros ->.
Qed.

(** An input that the schema rejects is answered 400 and nothing is stored. *)
Lemma create_post_invalid env (db : Collection) user body :
  validatePost (new_Post env user body).2 = false →
  create_post validatePost env db user body
    = (fail 400 (ErrorMessage ValidationError), db).
Proof. intros Hinvalid. unfold create_post, save_new. by rewrite Hinvalid. Qed.

(** C4, as the handler has it. An update of an existing post leaves
    its author as it was, whatever the outcome. It is answered 200 exactly
    when the requester is the author or an admin and the schema accepts
    the update. When [tags] is absent or the empty string the tags of the
    post are retained; when it is a non-empty string and the update goes
    through, the tags are its pieces between commas, each trimmed. *)
Theorem update_post_author_and_tags (db : Collection) user id oid post body :
  castObjectId id = Some oid →
  db !! oid = Some post →
  ∃ post',
    (update_post castObjectId validateUpdate db user id body).2 !! oid = Some post' ∧
    author post' = author post ∧
    (JS.truthy (b_tags body) = false → tags post' = tags post) ∧
    (∀ t, b_tags body = Some t → t ≠ "" →
          statusCode (update_post castObjectId validateUpdate db user id body).1 = 200 →
          tags post' = map JS.trim (JS.split "," t)) ∧
    (statusCode (update_post castObjectId validateUpdate db user id body).1 = 200 ↔
       not_authorized (author post) user = false ∧
       validateUpdate (update_of post body) = true).
Proof.
  intros Hcast Hpost. unfold update_post.
  rewrite (findById_found _ _ _ _ _ Hcast Hpost). simpl.
  destruct (not_authorized (author post) user) eqn:Hauth; simpl.
  { exists post. repeat split; try done; by intros []. }
  unfold findByIdAndUpdate. rewrite Hcast, Hpost.
  destruct (validateUpdate (update_of post body)) eqn:Hvalid; simpl.
  - exists (apply_update (update_of post body) post).
    rewrite lookup_insert_eq. simpl.
    split; [done|]. split; [done|]. split; [by intros ->|].
    split; [|done].
    intros t -> Hne _. rewrite truthy_Some.
    apply String.eqb_neq in Hne. by rewrite Hne.
  - exists post. repeat split; try done; by intros [].
Qed.

(** C7, on the handlers. An id that does not cast to a document id
    makes [findById] reject with a CastError, which the handler catches:
    GET, DELETE, like and comment deletion answer 500, and PUT and comment
    creation 400; the collection is untouched. The global error handler,
    which would answer a CastError with 400, is not reached. *)
Theorem malformed_id_status env (db : Collection) user id commentId body content :
  castObjectId id = None →
  get_post castObjectId db id = (fail 500 (ErrorMessage CastError), db) ∧
  delete_post castObjectId db user id = (fail 500 (ErrorMessage CastError), db) ∧
  like_post castObjectId db user id = (fail 500 (ErrorMessage CastError), db) ∧
  delete_comment castObjectId db user id commentId
    = (fail 500 (ErrorMessage CastError), db) ∧
  update_post castObjectId validateUpdate db user id body
    = (fail 400 (ErrorMessage CastError), db) ∧
  add_comment castObjectId env db user id content
    = (fail 400 (ErrorMessage CastError), db) ∧
  statusCode (globalErrorHandler CastError) = 400.
Proof.
  intros Hcast.
  unfold get_post, delete_post, like_post, delete_comment, update_post, add_comment.
  rewrite (findById_malformed _ _ _ Hcast). simpl. done.
Qed.

(** Fetching an existing post adds one to its views and changes nothing else. *)
Lemma get_post_found (db : Collection) id oid post :
  castObjectId id = Some oid → db !! oid = Some post →
  get_post castObjectId db id =
    (mkResponse 200 true None (Some (OnePost (Some (oid, set_views (views post + 1)%Z post)))),
     <[oid := set_views (views post + 1)%Z post]> db).
Proof.
  intros Hcast Hpost. unfold get_post.
  by rewrite (findById_found _ _ _ _ _ Hcast Hpost).
Qed.

Lemma get_post_missing (db : Collection) id oid :
  castObjectId id = Some oid → db !! oid = None →
  get_post castObjectId db id = (fail 404 (Text "Post not found"), db).
Proof.
  intros Hcast Hpost. unfold get_post.
  by rewrite (findById_missing _ _ _ _ Hcast Hpost).
Qed.

End CreateUpdate.

(** ** The theorems at concrete requests *)

Section Requests.

Import Instance.

Lemma put_delete_authorization_witness :
  (update_post castObjectId validateUpdate db1 bob id1 body1).2 = db1 ∧
  statusCode (delete_post castObjectId db1 bob id1).1 = 403 ∧
  (delete_post castObjectId db1 alice id1).2 = delete 1%N db1 ∧
  statusCode (update_post castObjectId validateUpdate db1 root id1 body1).1 = 200.
Proof.
  destruct (put_delete_authorization castObjectId validateUpdate db1 bob id1 1%N post1 body1
              eq_refl eq_refl) as [Hno _].
  destruct Hno as (_ & Hput & Hdel & _).
  { split; [vm_compute; discriminate | vm_compute; discriminate]. }
  destruct (put_delete_authorization castObjectId validateUpdate db1 alice id1 1%N post1 body1
              eq_refl eq_refl) as [_ Halice].
  destruct Halice as (_ & _ & _ & Hdel').
  { left. reflexivity. }
  destruct (put_delete_authorization castObjectId validateUpdate db1 root id1 1%N post1 body1
              eq_refl eq_refl) as [_ Hroot].
  destruct Hroot as (_ & Hput' & _).
  { right. reflexivity. }
  destruct (Hput' eq_refl) as [Hok _].
  exact (conj Hput (conj Hdel (conj Hdel' Hok))).
Defined.

Lemma like_toggle_witness :
  ∃ post2,
    (like_post castObjectId (like_post castObjectId db1 bob id1).2 bob id1).2
      = <[1%N := post2]> db1 ∧
    likes post2 ≡ₚ likes post1.
Proof.
  destruct (like_toggle castObjectId db1 bob id1 1%N post1 eq_refl eq_refl)
    as (p1 & _ & _ & _ & _ & _ & Htwice).
  destruct Htwice as (p2 & Hdb & _ & Hperm & _).
  { apply (bool_decide_unpack _). vm_compute. exact I. }
  exists p2. exact (conj Hdb Hperm).
Defined.


(** With [status=], the draft is listed along with the published posts. *)
Example list_posts_any_status :
  ∃ posts pg,
    list_posts castObjectId regexp_ext db13 any_status
      = mkResponse 200 true None (Some (PostList posts pg)) ∧
    total pg = 13%Z ∧ (13%N, post_n 13) ∈ posts ∧ status (post_n 13) = Some "draft".
Proof.
  eexists _, _. split; [vm_compute; reflexivity|].
  split; [reflexivity|]. split; [|reflexivity].
  apply list_elem_of_In. vm_compute. tauto.
Qed.

(** C5, as stated, at [tags: ""]: the post is created with no tag,
    while the empty string split on commas is one empty piece. *)
Lemma create_post_empty_tags_counterexample :
  b_tags body_empty_tags = Some "" ∧
  validatePost (new_Post env1 alice body_empty_tags).2 = true ∧
  ∃ post,
    (create_post validatePost env1 db1 alice body_empty_tags).2 !! 30%N = Some post ∧
    tags post = [] ∧
    tags post ≠ map JS.trim (JS.split "," "").
Proof.
  split; [reflexivity|]. split; [reflexivity|].
  eexists. split; [vm_compute; reflexivity|]. split; [reflexivity|]. discriminate.
Qed.

Lemma create_post_tags_witness :
  ∃ post,
    (create_post validatePost env1 db1 alice body_new).2 = <[30%N := post]> db1 ∧
    tags post = ["karst"; "springs"] ∧ status post = Some "draft".
Proof.
  destruct (create_post_tags validatePost env1 db1 alice body_new eq_refl eq_refl)
    as (post & Hres & Htags & Hdraft & _).
  exists post. rewrite Hres. split; [reflexivity|].
  split; [exact Htags | exact (Hdraft eq_refl)].
Defined.

(** C4, as stated, at [tags: ""]: the update goes through and the
    tags of the post are retained, while the empty string split on commas
    is one empty piece. *)
Lemma update_post_empty_tags_counterexample :
  b_tags body_empty_tags = Some "" ∧
  statusCode (update_post castObjectId validateUpdate db1 alice id1 body_empty_tags).1 = 200 ∧
  ∃ post',
    (update_post castObjectId validateUpdate db1 alice id1 body_empty_tags).2 !! 1%N
      = Some post' ∧
    tags post' = tags post1 ∧
    tags post' ≠ map JS.trim (JS.split "," "").
Proof.
  split; [reflexivity|]. split; [reflexivity|].
  eexists. split; [vm_compute; reflexivity|]. split; [reflexivity|]. discriminate.
Qed.

Lemma update_post_author_and_tags_witness :
  ∃ post',
    (update_post castObjectId validateUpdate db1 alice id1 body1).2 !! 1%N = Some post' ∧
    author post' = 10%N ∧ tags post' = ["rivers"; "lakes"].
Proof.
  destruct (update_post_author_and_tags castObjectId validateUpdate db1 alice id1 1%N post1
              body1 eq_refl eq_refl) as (post' & Hpost' & Hauthor & _ & Htags & _).
  exists post'. split; [exact Hpost'|]. split; [exact Hauthor|].
  apply (Htags "rivers , lakes" eq_refl); [discriminate | reflexivity].
Defined.

Lemma malformed_id_status_witness :
  statusCode (get_post castObjectId db1 "not-an-id").1 = 500 ∧
  statusCode (globalErrorHandler CastError) = 400.
Proof.
  destruct (malformed_id_status castObjectId validateUpdate env1 db1 alice "not-an-id"
              "20" body1 None eq_refl) as (Hget & _ & _ & _ & _ & _ & Hglobal).
  rewrite Hget. split; [reflexivity | exact Hglobal].
Defined.

Lemma add_comment_requires_content_witness :
  (add_comment castObjectId env1 db1 alice id1 (Some "")).2 = db1 ∧
  statusCode (add_comment castObjectId env1 db1 alice id1 None).1 = 400 ∧
  comments <$> (add_comment castObjectId env1 db1 alice id1 (Some "agreed")).2 !! 1%N
    = Some (comments post1 ++ [mkComment 30%N 10%N (Some "agreed") 200%Z]).
Proof.
  destruct (add_comment_requires_content castObjectId env1 db1 alice id1 1%N post1 (Some "")
              eq_refl eq_refl) as [Hempty _].
  destruct (Hempty (or_intror eq_refl)) as (_ & _ & Hdb).
  destruct (add_comment_requires_content castObjectId env1 db1 alice id1 1%N post1 None
              eq_refl eq_refl) as [Habsent _].
  destruct (Habsent (or_introl eq_refl)) as (Hcode & _ & _).
  destruct (add_comment_requires_content castObjectId env1 db1 alice id1 1%N post1
              (Some "agreed") eq_refl eq_refl) as [_ Hok].
  split; [exact Hdb|]. split; [exact Hcode|].
  rewrite (Hok "agreed" eq_refl ltac:(discriminate)). reflexivity.
Defined.

Lemma delete_comment_removes_one_witness :
  comments <$> (delete_comment castObjectId db1 bob id1 comment_id1).2 !! 1%N
    = Some [mkComment 21%N 10%N (Some "thanks") 102%Z].
Proof.
  destruct (delete_comment_removes_one castObjectId db1 bob id1 comment_id1 1%N post1
              (mkComment 20%N 11%N (Some "nice") 101%Z) eq_refl eq_refl eq_refl)
    as (i & Hi & Hres).
  - vm_compute. left.
  - left. reflexivity.
  - apply (bool_decide_unpack _). vm_compute. exact I.
  - rewrite Hres. destruct i as [|[|i]]; [reflexivity | discriminate Hi | discriminate Hi].
Defined.

End Requests.

(** * Further properties of the handlers *)

(** ** What a request leaves alone *)

Section Frame.

Variable castObjectId : string → option ObjectId.
Variable validateUpdate : Update → bool.

(** The collection after a request on the post [id], seen from the
    collection before it: nothing is written, or the addressed post, which
    existed, is written back with the same author and creation date and
    with views that have not decreased. *)
Local Abbreviation rewrites_post id db db' :=
  (db' = db ∨
   ∃ oid p p', castObjectId id = Some oid ∧ db !! oid = Some p ∧
               db' = <[oid := p']> db ∧
               author p' = author p ∧ createdAt p' = createdAt p ∧
               (views p ≤ views p')%Z).

Lemma findById_cases (db : Collection) id :
  findById castObjectId db id = Rejected CastError ∨
  findById castObjectId db id = Resolved None ∨
  ∃ oid p, castObjectId id = Some oid ∧ db !! oid = Some p ∧
           findById castObjectId db id = Resolved (Some (oid, p)).
Proof.
  unfold findById. destruct (castObjectId id) as [oid|]; [|by left].
  right. destruct (db !! oid) as [p|] eqn:Hp; [right|by left]. by exists oid, p.
Qed.

Lemma get_post_rewrites (db : Collection) id :
  rewrites_post id db (get_post castObjectId db id).2.
Proof.
  unfold get_post.
  destruct (findById_cases db id) as [-> | [-> | (oid & p & Hc & Hp & ->)]];
    simpl; [by left..|].
  right. exists oid, p, (set_views (views p + 1)%Z p). simpl.
  repeat split; try done. lia.
Qed.

Lemma update_post_rewrites (db : Collection) user id body :
  rewrites_post id db (update_post castObjectId validateUpdate db user id body).2.
Proof.
  unfold update_post.
  destruct (findById_cases db id) as [-> | [-> | (oid & p & Hc & Hp & ->)]];
    simpl; [by left..|].
  destruct (not_authorized (author p) user); simpl; [by left|].
  unfold findByIdAndUpdate. rewrite Hc, Hp.
  destruct (validateUpdate (update_of p body)); simpl; [|by left].
  right. exists oid, p, (apply_update (update_of p body) p). simpl.
  repeat split; try done.
Qed.

Lemma like_post_rewrites (db : Collection) user id :
  rewrites_post id db (like_post castObjectId db user id).2.
Proof.
  unfold like_post.
  destruct (findById_cases db id) as [-> | [-> | (oid & p & Hc & Hp & ->)]];
    simpl; [by left..|].
  right. eexists oid, p, _. split; [done|]. split; [done|]. split; [done|].
  by destruct (JS.findIndex _ (likes p) >? -1)%Z.
Qed.

Lemma add_comment_rewrites env (db : Collection) user id content :
  rewrites_post id db (add_comment castObjectId env db user id content).2.
Proof.
  unfold add_comment.
  destruct (findById_cases db id) as [-> | [-> | (oid & p & Hc & Hp & ->)]];
    simpl; [by left..|].
  unfold save_comment. destruct (comment_valid _); simpl; [|by left].
  right. eexists oid, p, _. split; [done|]. split; [done|]. split; [done|]. done.
Qed.

Lemma delete_comment_rewrites (db : Collection) user id commentId :
  rewrites_post id db (delete_comment castObjectId db user id commentId).2.
Proof.
  unfold delete_comment.
  destruct (findById_cases db id) as [-> | [-> | (oid & p & Hc & Hp & ->)]];
    simpl; [by left..|].
  destruct (comments_id castObjectId (comments p) commentId) as [c|]; simpl; [|by left].
  destruct (not_authorized (comment_user c) user); simpl; [by left|].
  right. eexists oid, p, _. split; [done|]. split; [done|]. split; [done|]. done.
Qed.

Lemma rewrites_post_frame id (db db' : Collection) :
  rewrites_post id db db' →
  dom db' = dom db ∧
  (∀ oid', castObjectId id ≠ Some oid' → db' !! oid' = db !! oid').
Proof.
  intros [-> | (oid & p & p' & Hc & Hp & -> & _)]; [done|]. split.
  - apply dom_insert_lookup_L. by eexists.
  - intros oid' Hne. apply lookup_insert_ne. congruence.
Qed.

Lemma rewrites_post_fixed id (db db' : Collection) oid p :
  rewrites_post id db db' → db !! oid = Some p →
  ∃ p', db' !! oid = Some p' ∧ author p' = author p ∧
        createdAt p' = createdAt p ∧ (views p ≤ views p')%Z.
Proof.
  intros [-> | (oid0 & p0 & p' & Hc & Hp0 & -> & Ha & Hd & Hv)] Hp.
  - exists p. repeat split; try done.
  - destruct (decide (oid0 = oid)) as [->|Hne].
    + rewrite Hp0 in Hp. injection Hp as ->.
      exists p'. by rewrite lookup_insert_eq.
    + exists p. rewrite lookup_insert_ne by done. repeat split; try done.
Qed.

(** Fetching, updating, liking and commenting neither create nor remove a
    document, and leave every post but the addressed one as it was. *)
Theorem requests_touch_one_post env (db : Collection) user id commentId body content :
  ∀ db', db' ∈ [ (get_post castObjectId db id).2;
                 (update_post castObjectId validateUpdate db user id body).2;
                 (like_post castObjectId db user id).2;
                 (add_comment castObjectId env db user id content).2;
                 (delete_comment castObjectId db user id commentId).2 ] →
    dom db' = dom db ∧
    (∀ oid', castObjectId id ≠ Some oid' → db' !! oid' = db !! oid').
Proof.
  intros db' Hin. apply (rewrites_post_frame id).
  rewrite !elem_of_cons in Hin.
  destruct Hin as [-> | [-> | [-> | [-> | [-> | Hnil]]]]];
    [apply get_post_rewrites | apply update_post_rewrites | apply like_post_rewrites
    | apply add_comment_rewrites | apply delete_comment_rewrites
    | by apply elem_of_nil in Hnil].
Qed.

(** Through the same requests, whatever their outcome, a post keeps its
    author and its creation date, and its views never decrease. *)
Theorem author_and_date_are_fixed env (db : Collection) user id commentId body content oid p :
  db !! oid = Some p →
  ∀ db', db' ∈ [ (get_post castObjectId db id).2;
                 (update_post castObjectId validateUpdate db user id body).2;
                 (like_post castObjectId db user id).2;
                 (add_comment castObjectId env db user id content).2;
                 (delete_comment castObjectId db user id commentId).2 ] →
    ∃ p', db' !! oid = Some p' ∧ author p' = author p ∧
          createdAt p' = createdAt p ∧ (views p ≤ views p')%Z.
Proof.
  intros Hp db' Hin. apply (rewrites_post_fixed id db); [|done].
  rewrite !elem_of_cons in Hin.
  destruct Hin as [-> | [-> | [-> | [-> | [-> | Hnil]]]]];
    [apply get_post_rewrites | apply update_post_rewrites | apply like_post_rewrites
    | apply add_comment_rewrites | apply delete_comment_rewrites
    | by apply elem_of_nil in Hnil].
Qed.

(** A request on an id that casts to no stored post is answered 404, Post
    not found, and writes nothing. *)
Theorem missing_post_is_404 env (db : Collection) user id oid commentId body content :
  castObjectId id = Some oid →
  db !! oid = None →
  ∀ r, r ∈ [ get_post castObjectId db id;
             update_post castObjectId validateUpdate db user id body;
             delete_post castObjectId db user id;
             like_post castObjectId db user id;
             add_comment castObjectId env db user id content;
             delete_comment castObjectId db user id commentId ] →
    r = (fail 404 (Text "Post not found"), db).
Proof.
  intros Hcast Hnone r Hin.
  unfold get_post, update_post, delete_post, like_post, add_comment, delete_comment in Hin.
  rewrite (findById_missing _ _ _ _ Hcast Hnone) in Hin. simpl in Hin.
  rewrite !elem_of_cons in Hin.
  destruct Hin as [-> | [-> | [-> | [-> | [-> | [-> | Hnil]]]]]]; try done.
  by apply elem_of_nil in Hnil.
Qed.

End Frame.

(** ** Fetching, deleting and creating *)

Section Lifecycle.

Variable castObjectId : string → option ObjectId.
Variable validatePost : Post → bool.
Variable validateUpdate : Update → bool.

Lemma set_views_set_views v w p : set_views v (set_views w p) = set_views v p.
Proof. done. Qed.

(** Two fetches of a post add exactly two to its views, whoever asks,
    and change nothing else in the collection; the second response shows
    the post with both. *)
Theorem get_post_twice (db : Collection) id oid post :
  castObjectId id = Some oid →
  db !! oid = Some post →
  get_post castObjectId (get_post castObjectId db id).2 id =
    (mkResponse 200 true None
       (Some (OnePost (Some (oid, set_views (views post + 2)%Z post)))),
     <[oid := set_views (views post + 2)%Z post]> db).
Proof.
  intros Hcast Hpost.
  rewrite (get_post_found castObjectId db id oid post Hcast Hpost). simpl.
  rewrite (get_post_found castObjectId _ id oid (set_views (views post + 1)%Z post) Hcast)
    by apply lookup_insert_eq.
  rewrite insert_insert_eq, set_views_set_views. simpl.
  by replace (views post + 1 + 1)%Z with (views post + 2)%Z by lia.
Qed.

(** Once its author or an admin has deleted a post, the post with its
    comments and likes is gone: fetching it, liking it, updating it,
    commenting on it or deleting it again is answered 404, and the other
    posts are as they were. *)
Theorem deleted_post_is_gone env (db : Collection) user other id oid post body content :
  castObjectId id = Some oid →
  db !! oid = Some post →
  author post = user_id user ∨ role user = "admin" →
  (delete_post castObjectId db user id).2 = delete oid db ∧
  (∀ oid', oid' ≠ oid →
     (delete_post castObjectId db user id).2 !! oid' = db !! oid') ∧
  statusCode (get_post castObjectId (delete_post castObjectId db user id).2 id).1 = 404 ∧
  statusCode (like_post castObjectId (delete_post castObjectId db user id).2 other id).1
    = 404 ∧
  statusCode (update_post castObjectId validateUpdate
                (delete_post castObjectId db user id).2 other id body).1 = 404 ∧
  statusCode (add_comment castObjectId env
                (delete_post castObjectId db user id).2 other id content).1 = 404 ∧
  statusCode (delete_post castObjectId (delete_post castObjectId db user id).2 other id).1
    = 404.
Proof.
  intros Hcast Hpost Hauth.
  assert ((delete_post castObjectId db user id).2 = delete oid db) as ->.
  { unfold delete_post. rewrite (findById_found _ _ _ _ _ Hcast Hpost). simpl.
    apply not_authorized_false in Hauth. rewrite Hauth.
    unfold findByIdAndDelete. by rewrite Hcast. }
  split; [done|]. split; [intros oid' Hne; by apply lookup_delete_ne|].
  unfold get_post, like_post, update_post, add_comment, delete_post.
  rewrite (findById_missing _ _ _ _ Hcast (lookup_delete_eq db oid)). simpl. done.
Qed.



End Lifecycle.

(** ** What a listing holds *)

Section ListingContents.

Variable castObjectId : string → option ObjectId.
Variable regexp_ext : string → option (string → bool).

#[local] Instance newest_first_transitive : Transitive newest_first.
Proof. intros x y z. unfold newest_first. lia. Qed.

#[local] Instance newest_first_total : Total newest_first.
Proof. intros x y. unfold newest_first. lia. Qed.

(** The posts that match, newest first: what the pages are cut from. *)
Local Abbreviation sorted_matching db f a :=
  (merge_sort newest_first (matching db f a)).

Lemma list_posts_inv (db : Collection) q posts pg :
  list_posts castObjectId regexp_ext db q
    = mkResponse 200 true None (Some (PostList posts pg)) →
  ∃ f a, build_query regexp_ext q = Resolved f ∧
         cast_author castObjectId f = Resolved a ∧
         (0 ≤ skip_of q)%Z ∧
         posts = apply_limit (limit_of q)
                   (drop (Z.to_nat (skip_of q)) (sorted_matching db f a)).
Proof.
  unfold list_posts.
  destruct (build_query regexp_ext q) as [f|e] eqn:Hq; simpl; [|done].
  unfold find, countDocuments.
  destruct (cast_author castObjectId f) as [a|e] eqn:Ha; simpl; [|done].
  destruct (Z.ltb_spec (skip_of q) 0); simpl; [done|].
  intros [= <- _]. by exists f, a.
Qed.

Lemma build_query_tags_author q f :
  build_query regexp_ext q = Resolved f →
  f_tags f = (if JS.truthy (q_tags q)
              then Some (JS.split "," (default "" (q_tags q))) else None) ∧
  f_author f = (if JS.truthy (q_author q) then q_author q else None).
Proof.
  unfold build_query. intros Hq.
  destruct (if JS.truthy (q_category q) then _ else _) as [r|e]; simpl in Hq; [|done].
  by injection Hq as <-.
Qed.

Lemma filter_sublist {A} (f : A → bool) (l : list A) : List.filter f l `sublist_of` l.
Proof.
  induction l as [|x l IH]; simpl; [constructor|].
  destruct (f x); by constructor.
Qed.

Lemma apply_limit_sublist n (docs : list Doc) : apply_limit n docs `sublist_of` docs.
Proof.
  unfold apply_limit. destruct (n =? 0)%Z; [done|apply sublist_take].
Qed.

Lemma page_sublist n k (docs : list Doc) :
  apply_limit n (drop k docs) `sublist_of` docs.
Proof. etrans; [apply apply_limit_sublist|apply sublist_drop]. Qed.

Lemma elem_of_matching (db : Collection) f a oid post :
  (oid, post) ∈ matching db f a ↔ db !! oid = Some post ∧ matches f a post = true.
Proof.
  unfold matching. rewrite list_elem_of_In, filter_In, <- list_elem_of_In.
  by rewrite elem_of_map_to_list.
Qed.

Lemma StronglySorted_sublist {A} (R : relation A) (l1 l2 : list A) :
  l1 `sublist_of` l2 → StronglySorted R l2 → StronglySorted R l1.
Proof.
  induction 1 as [|x l1 l2 Hsub IH|x l1 l2 Hsub IH]; intros Hs; [done|..].
  - apply StronglySorted_inv in Hs as [Hs Hall]. constructor; [by apply IH|].
    rewrite Forall_forall in *. intros y Hy. apply Hall. by eapply elem_of_sublist.
  - apply StronglySorted_inv in Hs as [Hs _]. by apply IH.
Qed.

(** Every post of a page is a stored post that passes each filter of the
    request: its status is the one asked for, published when the parameter
    is absent (and any status when it is empty); one of its tags is among
    the pieces of the [tags] parameter, taken between the commas as they
    are; its author is the one whose id the [author] parameter casts to. *)
Theorem list_posts_sound (db : Collection) q posts pg oid post :
  list_posts castObjectId regexp_ext db q
    = mkResponse 200 true None (Some (PostList posts pg)) →
  (oid, post) ∈ posts →
  db !! oid = Some post ∧
  match q_status q with
  | None => status post = Some "published"
  | Some EmptyString => True
  | Some s => status post = Some s
  end ∧
  (JS.truthy (q_tags q) = true →
     ∃ t, t ∈ tags post ∧ t ∈ JS.split "," (default "" (q_tags q))) ∧
  (JS.truthy (q_author q) = true →
     castObjectId (default "" (q_author q)) = Some (author post)) ∧
  (JS.truthy (q_category q) = true → is_Some (category post)).
Proof.
  intros Hres Hin.
  destruct (list_posts_inv db q posts pg Hres) as (f & a & Hq & Ha & _ & ->).
  eapply elem_of_sublist in Hin; [|apply page_sublist].
  rewrite merge_sort_Permutation in Hin. apply elem_of_matching in Hin as [Hdb Hm].
  split; [done|].
  pose proof (build_query_status regexp_ext q f Hq) as Hs.
  destruct (build_query_tags_author q f Hq) as [Ht Hau].
  unfold matches in Hm. rewrite !andb_true_iff in Hm.
  destruct Hm as [[[Hms Hmc] Hmt] Hma].
  split; [|split; [|split]].
  - rewrite Hs in Hms. destruct (q_status q) as [[|c s]|]; [done|..];
      by apply bool_decide_eq_true in Hms.
  - intros Htr. rewrite Htr in Ht. rewrite Ht in Hmt.
    apply existsb_exists in Hmt as (t & Hin1 & Hin2).
    exists t. split; [by apply list_elem_of_In|by apply bool_decide_eq_true in Hin2].
  - intros Htr. rewrite Htr in Hau. unfold cast_author in Ha. rewrite Hau in Ha.
    destruct (q_author q) as [s|]; [|done]. simpl in *.
    destruct (castObjectId s) as [o|]; [|done]. injection Ha as <-.
    apply bool_decide_eq_true in Hma. by rewrite Hma.
  - intros Htr. unfold build_query in Hq. rewrite Htr in Hq.
    destruct (RegExp_new regexp_ext (default "" (q_category q))) as [r|e];
      simpl in Hq; [|done].
    injection Hq as <-. simpl in Hmc. by destruct (category post).
Qed.

(** A page is in order, newest first: each post is at least as recent as
    every post after it. No post is listed twice. *)
Theorem list_posts_newest_first (db : Collection) q posts pg :
  list_posts castObjectId regexp_ext db q
    = mkResponse 200 true None (Some (PostList posts pg)) →
  StronglySorted newest_first posts ∧ NoDup posts.*1.
Proof.
  intros Hres.
  destruct (list_posts_inv db q posts pg Hres) as (f & a & _ & _ & _ & ->). split.
  - eapply StronglySorted_sublist; [apply page_sublist|].
    apply StronglySorted_merge_sort; apply _.
  - eapply sublist_NoDup; [|apply fmap_sublist, page_sublist].
    rewrite merge_sort_Permutation.
    eapply sublist_NoDup; [apply (NoDup_fst_map_to_list db)|].
    apply fmap_sublist, filter_sublist.
Qed.

Lemma distinct_dates_of_NoDup (db : Collection) :
  NoDup ((λ d : Doc, createdAt d.2) <$> map_to_list db) →
  ∀ o1 o2 p1 p2, db !! o1 = Some p1 → db !! o2 = Some p2 →
                 createdAt p1 = createdAt p2 → o1 = o2.
Proof.
  intros Hnd o1 o2 p1 p2 H1 H2 Hdate.
  apply elem_of_map_to_list, list_elem_of_lookup in H1 as [i Hi].
  apply elem_of_map_to_list, list_elem_of_lookup in H2 as [j Hj].
  assert (i = j) as ->.
  { eapply NoDup_lookup; [exact Hnd|..].
    - by rewrite list_lookup_fmap, Hi.
    - rewrite list_lookup_fmap, Hj. simpl. by rewrite Hdate. }
  congruence.
Qed.

(** Two requests that differ by one in their page, with the same positive
    limit and the same filters, against a collection whose posts have
    distinct creation dates, return adjacent stretches of the matching
    posts: together, in whatever way the matching posts are put newest
    first, the stretch of twice the limit that starts where the first page
    starts. No post is on both pages and none is skipped between them.
    The pages, the limit and the skips are safe integers. *)
Theorem list_posts_next_page (db : Collection) q1 q2 posts1 pg1 posts2 pg2 :
  (∀ o1 o2 p1 p2, db !! o1 = Some p1 → db !! o2 = Some p2 →
                  createdAt p1 = createdAt p2 → o1 = o2) →
  JS.isSafeInteger (page_of q1) = true → JS.isSafeInteger (page_of q2) = true →
  JS.isSafeInteger (limit_of q1) = true → JS.isSafeInteger (skip_of q2) = true →
  q_category q2 = q_category q1 → q_tags q2 = q_tags q1 →
  q_status q2 = q_status q1 → q_author q2 = q_author q1 →
  q_limit q2 = q_limit q1 →
  (0 < limit_of q1)%Z →
  (page_of q2 = page_of q1 + 1)%Z →
  list_posts castObjectId regexp_ext db q1
    = mkResponse 200 true None (Some (PostList posts1 pg1)) →
  list_posts castObjectId regexp_ext db q2
    = mkResponse 200 true None (Some (PostList posts2 pg2)) →
  NoDup (posts1 ++ posts2).*1 ∧
  ∃ f a, build_query regexp_ext q1 = Resolved f ∧
         cast_author castObjectId f = Resolved a ∧
         ∀ l, l ≡ₚ matching db f a → Sorted newest_first l →
              posts1 ++ posts2 =
                take (Z.to_nat (2 * limit_of q1)) (drop (Z.to_nat (skip_of q1)) l).
Proof.
  intros Hdates _ _ _ _ Hc Ht Hs Ha Hl Hpos Hpage Hres1 Hres2.
  destruct (list_posts_inv db q1 posts1 pg1 Hres1) as (f & a & Hq1 & Ha1 & Hskip & ->).
  destruct (list_posts_inv db q2 posts2 pg2 Hres2) as (f2 & a2 & Hq2 & Ha2 & _ & ->).
  assert (build_query regexp_ext q2 = build_query regexp_ext q1) as Hsame
    by (unfold build_query; by rewrite Hc, Ht, Hs, Ha).
  rewrite Hsame, Hq1 in Hq2. injection Hq2 as <-.
  rewrite Ha1 in Ha2. injection Ha2 as <-.
  assert (limit_of q2 = limit_of q1) as Hlim by (unfold limit_of; by rewrite Hl).
  assert (skip_of q2 = skip_of q1 + limit_of q1)%Z as Hskip2
    by (unfold skip_of; rewrite Hlim, Hpage; lia).
  rewrite Hlim, Hskip2. unfold apply_limit.
  destruct (Z.eqb_spec (limit_of q1) 0) as [E|_]; [lia|].
  rewrite Z.abs_eq by lia.
  replace (Z.to_nat (skip_of q1 + limit_of q1))
    with (Z.to_nat (skip_of q1) + Z.to_nat (limit_of q1))%nat by lia.
  rewrite <- drop_drop, take_take_drop.
  replace (Z.to_nat (limit_of q1) + Z.to_nat (limit_of q1))%nat
    with (Z.to_nat (2 * limit_of q1)) by lia.
  split.
  - eapply sublist_NoDup;
      [|apply fmap_sublist; etrans; [apply sublist_take|apply sublist_drop]].
    rewrite merge_sort_Permutation.
    eapply sublist_NoDup; [apply (NoDup_fst_map_to_list db)|].
    apply fmap_sublist, filter_sublist.
  - exists f, a. split; [done|]. split; [done|].
    intros l Hperm Hsorted.
    assert (l = sorted_matching db f a) as ->; [|done].
    apply (Sorted_unique_strong newest_first); [|done|apply Sorted_merge_sort; apply _|].
    + intros [o1 p1] [o2 p2] H1 H2 H12 H21.
      rewrite Hperm in H1. rewrite merge_sort_Permutation in H2.
      apply elem_of_matching in H1 as [H1 _]. apply elem_of_matching in H2 as [H2 _].
      unfold newest_first in H12, H21. simpl in *.
      assert (o1 = o2) as -> by (apply (Hdates o1 o2 p1 p2 H1 H2); lia).
      congruence.
    + by rewrite merge_sort_Permutation.
Qed.

(** Requests that are answered 500 with no data: a negative page with a
    positive limit, whose skip the store rejects; an [author] that casts to
    no document id; a [category] that is no regular expression. *)
Theorem list_posts_rejected (db : Collection) q :
  ((page_of q < 0)%Z → (0 < limit_of q)%Z →
     statusCode (list_posts castObjectId regexp_ext db q) = 500 ∧
     data (list_posts castObjectId regexp_ext db q) = None) ∧
  (∀ s, q_author q = Some s → s ≠ "" → castObjectId s = None →
        statusCode (list_posts castObjectId regexp_ext db q) = 500 ∧
        data (list_posts castObjectId regexp_ext db q) = None) ∧
  (∀ c, q_category q = Some c → c ≠ "" →
        RegExp.parse c = None → regexp_ext c = None →
        list_posts castObjectId regexp_ext db q = fail 500 (ErrorMessage SyntaxError)).
Proof.
  split; [|split].
  - intros Hpage Hlimit. apply list_posts_error. intros _ _ _ _.
    unfold skip_of. nia.
  - intros s Hs Hne Hcast. apply list_posts_error. intros f a Hq Ha. exfalso.
    destruct (build_query_tags_author q f Hq) as [_ Hau].
    rewrite Hs in Hau. assert (JS.truthy (Some s) = true) as Htr by (by destruct s).
    rewrite Htr in Hau. unfold cast_author in Ha. by rewrite Hau, Hcast in Ha.
  - intros c Hc Hne Hparse Hext. unfold list_posts, build_query. rewrite Hc.
    assert (JS.truthy (Some c) = true) as -> by (by destruct c).
    unfold RegExp_new. simpl. by rewrite Hparse, Hext.
Qed.

End ListingContents.

(** ** The status parameter *)

Section StatusParameter.

Variable castObjectId : string → option ObjectId.
Variable regexp_ext : string → option (string → bool).

Lemma filter_all {A} (f : A → bool) (l : list A) :
  (∀ x, f x = true) → List.filter f l = l.
Proof.
  intros Hall. induction l as [|x l IH]; simpl; [done|]. by rewrite Hall, IH.
Qed.

(** The first page holds every matching post when the limit reaches
    their number. *)
Lemma first_page_is_all n (docs : list Doc) :
  (Z.of_nat (length docs) ≤ n)%Z → n ≠ 0%Z →
  apply_limit n (drop (Z.to_nat 0) docs) = docs.
Proof.
  intros Hn Hne. unfold apply_limit. destruct (Z.eqb_spec n 0); [done|].
  simpl. apply take_ge. lia.
Qed.

(** C10. The [status] parameter of GET /api/posts. For the query that
    the handler builds: when the parameter is present and empty there is
    no status key, and whether a post matches does not depend on its
    status; when it is absent the key is published; a non-empty parameter
    is the status asked for; published is asked for in those two ways
    only. For the listing itself, when the parameter is present and
    empty: the first page, when the limit (a safe integer) reaches the
    total, holds exactly the stored posts that pass the other filters,
    whatever their status; with no other filter it holds every stored
    post, a draft or an archived one as well as a published one. When the
    parameter is absent, every post of every page is published. *)
Theorem empty_status_drops_filter (db : Collection) q :
  (∀ f, build_query regexp_ext q = Resolved f →
     (q_status q = Some "" →
        f_status f = None ∧
        ∀ a p p', category p = category p' → tags p = tags p' → author p = author p' →
                  matches f a p = matches f a p') ∧
     (q_status q = None → f_status f = Some "published") ∧
     (∀ s, q_status q = Some s → s ≠ "" → f_status f = Some s) ∧
     (f_status f = Some "published" →
        q_status q = None ∨ q_status q = Some "published")) ∧
  (q_status q = Some "" → page_of q = 1%Z → JS.isSafeInteger (limit_of q) = true →
     ∀ posts pg,
       list_posts castObjectId regexp_ext db q
         = mkResponse 200 true None (Some (PostList posts pg)) →
       (total pg ≤ limit_of q)%Z →
       ∃ f a, build_query regexp_ext q = Resolved f ∧
              cast_author castObjectId f = Resolved a ∧
              f_status f = None ∧
              ∀ oid post, (oid, post) ∈ posts ↔
                          db !! oid = Some post ∧ matches f a post = true) ∧
  (q_status q = Some "" →
   JS.truthy (q_category q) = false → JS.truthy (q_tags q) = false →
   JS.truthy (q_author q) = false →
   page_of q = 1%Z → JS.isSafeInteger (limit_of q) = true →
   (Z.of_nat (size db) ≤ limit_of q)%Z →
     ∃ posts pg,
       list_posts castObjectId regexp_ext db q
         = mkResponse 200 true None (Some (PostList posts pg)) ∧
       total pg = Z.of_nat (size db) ∧
       ∀ oid post, (oid, post) ∈ posts ↔ db !! oid = Some post) ∧
  (q_status q = None →
     ∀ posts pg oid post,
       list_posts castObjectId regexp_ext db q
         = mkResponse 200 true None (Some (PostList posts pg)) →
       (oid, post) ∈ posts → status post = Some "published").
Proof.
  split; [|split; [|split]].
  - intros f Hq. pose proof (build_query_status regexp_ext q f Hq) as Hs.
    split; [|split; [|split]].
    + intros E. rewrite E in Hs. split; [done|].
      intros a p p' Hc Ht Ha. unfold matches. by rewrite Hs, Hc, Ht, Ha.
    + intros E. by rewrite E in Hs.
    + intros s E Hne. rewrite E in Hs. by destruct s.
    + intros E. rewrite E in Hs.
      destruct (q_status q) as [[|c s]|]; [done| |by left].
      right. congruence.
  - intros Hempty Hpage _ posts pg Hres Htotal.
    destruct (list_posts_inv castObjectId regexp_ext db q posts pg Hres)
      as (f & a & Hq & Ha & Hskip & Hposts).
    rewrite (list_posts_ok castObjectId regexp_ext db q f a Hq Ha Hskip) in Hres.
    injection Hres as _ <-. simpl in Htotal.
    exists f, a. split; [done|]. split; [done|]. split.
    { pose proof (build_query_status regexp_ext q f Hq) as Hs. by rewrite Hempty in Hs. }
    intros oid post. rewrite Hposts.
    assert (skip_of q = 0%Z) as -> by (unfold skip_of; rewrite Hpage; lia).
    rewrite first_page_is_all;
      [|by rewrite length_merge_sort|apply limit_of_nonzero].
    by rewrite merge_sort_Permutation, elem_of_matching.
  - intros Hempty Hc Ht Ha Hpage _ Hsize.
    assert (build_query regexp_ext q = Resolved (mkFilter None None None None)) as Hq.
    { unfold build_query. by rewrite Hempty, Hc, Ht, Ha. }
    assert (skip_of q = 0%Z) as Hskip by (unfold skip_of; rewrite Hpage; lia).
    assert (matching db (mkFilter None None None None) None = map_to_list db) as Hall
      by (by apply filter_all).
    eexists _, _. split; [apply (list_posts_ok _ _ _ _ _ None Hq eq_refl); lia|].
    simpl. rewrite Hall, length_map_to_list. split; [done|].
    intros oid post. rewrite Hskip.
    rewrite first_page_is_all;
      [|by rewrite length_merge_sort, length_map_to_list|apply limit_of_nonzero].
    by rewrite merge_sort_Permutation, elem_of_map_to_list.
  - intros Habsent posts pg oid post Hres Hin.
    destruct (list_posts_inv castObjectId regexp_ext db q posts pg Hres)
      as (f & a & Hq & _ & _ & ->).
    eapply elem_of_sublist in Hin; [|apply page_sublist].
    rewrite merge_sort_Permutation in Hin. apply elem_of_matching in Hin as [_ Hm].
    pose proof (build_query_status regexp_ext q f Hq) as Hs. rewrite Habsent in Hs.
    by apply (matches_status f a post "published").
Qed.

End StatusParameter.

(** ** Likes, updates and comments *)

Section Subdocuments.

Variable castObjectId : string → option ObjectId.
Variable validateUpdate : Update → bool.

Local Abbreviation liked_by u := (λ like : Like, N.eqb (like_user like) u).

(** A toggle changes the number of likes by exactly one, and concerns the
    requester alone: whether another user has a like entry is the same
    after it as before. *)
Theorem like_post_others_untouched (db : Collection) user id oid post :
  castObjectId id = Some oid →
  db !! oid = Some post →
  ∃ post1,
    (like_post castObjectId db user id).2 !! oid = Some post1 ∧
    (mkLike (user_id user) ∈ likes post → S (length (likes post1)) = length (likes post)) ∧
    (mkLike (user_id user) ∉ likes post → length (likes post1) = S (length (likes post))) ∧
    (∀ v, v ≠ user_id user → mkLike v ∈ likes post1 ↔ mkLike v ∈ likes post).
Proof.
  intros Hcast Hpost. rewrite (like_post_found _ db user id oid post Hcast Hpost).
  simpl. rewrite lookup_insert_eq. eexists. split; [done|]. simpl.
  set (u := user_id user). set (ls := likes post).
  destruct (decide (mkLike u ∈ ls)) as [Hin|Hnot].
  - destruct (findIndex_present u ls Hin) as [Hge Hi].
    set (i := JS.findIndex (liked_by u) ls) in *.
    assert ((i >? -1)%Z = true) as -> by (apply Z.gtb_lt; lia).
    unfold JS.splice1. split; [|split; [done|]].
    + intros _. rewrite length_delete by (rewrite Hi; eauto).
      apply lookup_lt_Some in Hi. lia.
    + intros v Hv. rewrite (delete_Permutation ls (Z.to_nat i) (mkLike u) Hi) at 2.
      rewrite elem_of_cons. split; [by right|]. intros [[= E]|H]; [done|done].
  - rewrite (proj1 (findIndex_absent u ls) Hnot). simpl. unfold JS.push.
    split; [done|]. split.
    + intros _. rewrite length_app. simpl. lia.
    + intros v Hv. rewrite elem_of_app, list_elem_of_singleton.
      split; [|by left]. intros [H|[= E]]; [done|done].
Qed.

Lemma replace_if_defined_idem new old :
  replace_if_defined new (replace_if_defined new old) = replace_if_defined new old.
Proof. by destruct new. Qed.

(** The fields that an update writes and those that it keeps. When the
    update goes through, each of title, content, excerpt, category, status
    and featured image is the one sent, or the stored one when none is
    sent; views, creation date, likes and comments are the stored ones. *)
Theorem update_post_fields (db : Collection) user id oid post body :
  castObjectId id = Some oid →
  db !! oid = Some post →
  statusCode (update_post castObjectId validateUpdate db user id body).1 = 200 →
  ∃ post',
    (update_post castObjectId validateUpdate db user id body).2 = <[oid := post']> db ∧
    data (update_post castObjectId validateUpdate db user id body).1
      = Some (OnePost (Some (oid, post'))) ∧
    title post' = from_option Some (title post) (b_title body) ∧
    content post' = from_option Some (content post) (b_content body) ∧
    excerpt post' = from_option Some (excerpt post) (b_excerpt body) ∧
    category post' = from_option Some (category post) (b_category body) ∧
    status post' = from_option Some (status post) (b_status body) ∧
    featuredImage post' = from_option Some (featuredImage post) (b_featuredImage body) ∧
    views post' = views post ∧ createdAt post' = createdAt post ∧
    likes post' = likes post ∧ comments post' = comments post.
Proof.
  intros Hcast Hpost. unfold update_post.
  rewrite (findById_found _ _ _ _ _ Hcast Hpost). simpl.
  destruct (not_authorized (author post) user); simpl; [done|].
  unfold findByIdAndUpdate. rewrite Hcast, Hpost.
  destruct (validateUpdate (update_of post body)); simpl; [|done].
  intros _. exists (apply_update (update_of post body) post). simpl.
  split; [done|]. split; [done|]. unfold replace_if_defined.
  repeat split;
    [by destruct (b_title body) | by destruct (b_content body)
    | by destruct (b_excerpt body) | by destruct (b_category body)
    | by destruct (b_status body) | by destruct (b_featuredImage body)].
Qed.

(** Sending the same update twice leaves the collection as sending it
    once does, and is answered with the same status. *)
Theorem update_post_idempotent (db : Collection) user id body :
  update_post castObjectId validateUpdate
    (update_post castObjectId validateUpdate db user id body).2 user id body
  = ((update_post castObjectId validateUpdate db user id body).1,
     (update_post castObjectId validateUpdate db user id body).2).
Proof.
  unfold update_post at 2 3 4.
  destruct (findById_cases castObjectId db id) as [E | [E | (oid & p & Hc & Hp & E)]].
  - rewrite E. simpl. unfold update_post. by rewrite E.
  - rewrite E. simpl. unfold update_post. by rewrite E.
  - rewrite E. simpl.
    destruct (not_authorized (author p) user) eqn:Hauth; simpl.
    { unfold update_post. rewrite E. simpl. by rewrite Hauth. }
    unfold findByIdAndUpdate. rewrite Hc, Hp.
    destruct (validateUpdate (update_of p body)) eqn:Hvalid; simpl.
    + unfold update_post.
      rewrite (findById_found _ _ _ _ _ Hc (lookup_insert_eq _ _ _)). simpl.
      rewrite Hauth. unfold findByIdAndUpdate. rewrite Hc, lookup_insert_eq.
      assert (update_of (apply_update (update_of p body) p) body = update_of p body) as ->.
      { unfold update_of. simpl. by destruct (JS.truthy (b_tags body)). }
      rewrite Hvalid. simpl. rewrite insert_insert_eq.
      assert (apply_update (update_of p body) (apply_update (update_of p body) p)
              = apply_update (update_of p body) p) as ->.
      { unfold apply_update. simpl. by rewrite !replace_if_defined_idem. }
      done.
    + unfold update_post. rewrite E. simpl. rewrite Hauth.
      unfold findByIdAndUpdate. by rewrite Hc, Hp, Hvalid.
Qed.

Lemma find_none_intro {A} (f : A → bool) (l : list A) :
  (∀ x, In x l → f x = false) → List.find f l = None.
Proof.
  induction l as [|x l IH]; simpl; [done|]. intros Hall.
  rewrite (Hall x) by by left. apply IH. intros y Hy. apply Hall. by right.
Qed.

(** The refusals of a comment deletion on an existing post. When no
    comment of the post bears the id (or the id casts to none) the answer
    is 404, Comment not found. When the comment is another user's and the
    requester is not an admin the answer is 403, also for the author of
    the post. Nothing is written in either case. *)
Theorem delete_comment_refusals (db : Collection) user id commentId oid post :
  castObjectId id = Some oid →
  db !! oid = Some post →
  ((∀ c, c ∈ comments post → castObjectId commentId ≠ Some (comment_id c)) →
     delete_comment castObjectId db user id commentId
       = (fail 404 (Text "Comment not found"), db)) ∧
  (∀ c, c ∈ comments post → castObjectId commentId = Some (comment_id c) →
        NoDup (comment_id <$> comments post) →
        comment_user c ≠ user_id user → role user ≠ "admin" →
        delete_comment castObjectId db user id commentId
          = (fail 403 (Text "Not authorized to delete this comment"), db)).
Proof.
  intros Hcast Hpost. unfold delete_comment.
  rewrite (findById_found _ _ _ _ _ Hcast Hpost). simpl. split.
  - intros Hnone.
    assert (comments_id castObjectId (comments post) commentId = None) as ->; [|done].
    unfold comments_id. apply find_none_intro. intros c Hc.
    apply bool_decide_eq_false_2, Hnone. by apply list_elem_of_In.
  - intros c Hc Hid Hnd Hu Hr.
    rewrite (comments_id_unique _ _ _ _ Hid Hnd Hc).
    by rewrite (proj2 (not_authorized_true _ _) (conj Hu Hr)).
Qed.

Lemma find_fresh_last (cs : list Comment) c o :
  o = Some (comment_id c) → comment_id c ∉ comment_id <$> cs →
  List.find (λ c', bool_decide (o = Some (comment_id c'))) (cs ++ [c]) = Some c.
Proof.
  intros -> Hfresh. induction cs as [|x cs IH]; simpl.
  - by rewrite bool_decide_eq_true_2.
  - rewrite fmap_cons, not_elem_of_cons in Hfresh. destruct Hfresh as [Hne Hfresh].
    rewrite bool_decide_eq_false_2 by congruence. by apply IH.
Qed.

Lemma remove_fresh_last (cs : list Comment) c :
  comment_id c ∉ comment_id <$> cs → remove c (cs ++ [c]) = cs.
Proof.
  intros Hfresh. unfold remove. rewrite List.filter_app. simpl.
  rewrite N.eqb_refl. simpl. rewrite app_nil_r. by apply remove_absent.
Qed.

Lemma set_comments_same p : set_comments (comments p) p = p.
Proof. by destruct p. Qed.

(** A user who adds a comment and then deletes it, under the id that was
    generated for it, leaves the collection exactly as it was. The id is
    new to the post, as a generated id is. *)
Theorem add_then_delete_comment env (db : Collection) user id commentId oid post s :
  castObjectId id = Some oid →
  db !! oid = Some post →
  s ≠ "" →
  castObjectId commentId = Some (newObjectId env) →
  newObjectId env ∉ comment_id <$> comments post →
  delete_comment castObjectId
    (add_comment castObjectId env db user id (Some s)).2 user id commentId
  = (mkResponse 200 true (Some (Text "Comment deleted successfully")) None, db).
Proof.
  intros Hcast Hpost Hne Hcid Hfresh.
  assert ((add_comment castObjectId env db user id (Some s)).2
          = <[oid := set_comments
                       (comments post ++ [new_Comment env (user_id user) (Some s)])
                       post]> db) as ->.
  { unfold add_comment. rewrite (findById_found _ _ _ _ _ Hcast Hpost). simpl.
    unfold save_comment, comment_valid. simpl.
    apply String.eqb_neq in Hne. by rewrite Hne. }
  unfold delete_comment.
  rewrite (findById_found _ _ _ _ _ Hcast (lookup_insert_eq _ _ _)). simpl.
  unfold comments_id.
  rewrite (find_fresh_last (comments post) (new_Comment env (user_id user) (Some s)))
    by done.
  simpl. unfold not_authorized. simpl. rewrite N.eqb_refl. simpl.
  rewrite (remove_fresh_last (comments post) (new_Comment env (user_id user) (Some s)))
    by done.
  unfold save. simpl. rewrite insert_insert_eq.
  assert (set_comments (comments post)
            (set_comments (comments post ++ [new_Comment env (user_id user) (Some s)]) post)
          = post) as -> by (by destruct post).
  by rewrite insert_id.
Qed.

(** The comments of a post keep distinct ids: through a comment
    creation whose generated id is new to the post, and through any
    comment deletion. *)
Theorem comment_ids_stay_distinct env (db : Collection) user id commentId oid post content :
  castObjectId id = Some oid →
  db !! oid = Some post →
  NoDup (comment_id <$> comments post) →
  (newObjectId env ∉ comment_id <$> comments post →
     ∃ post', (add_comment castObjectId env db user id content).2 !! oid = Some post' ∧
              NoDup (comment_id <$> comments post')) ∧
  ∃ post', (delete_comment castObjectId db user id commentId).2 !! oid = Some post' ∧
           NoDup (comment_id <$> comments post').
Proof.
  intros Hcast Hpost Hnd. split.
  - intros Hfresh. unfold add_comment.
    rewrite (findById_found _ _ _ _ _ Hcast Hpost). simpl.
    unfold save_comment. destruct (comment_valid _); simpl.
    + unfold save. simpl. rewrite lookup_insert_eq. eexists. split; [done|].
      exact (add_comment_keeps_ids_distinct env (comments post) (user_id user) content
               Hnd Hfresh).
    + by exists post.
  - unfold delete_comment. rewrite (findById_found _ _ _ _ _ Hcast Hpost). simpl.
    destruct (comments_id castObjectId (comments post) commentId) as [c|]; simpl;
      [|by exists post].
    destruct (not_authorized (comment_user c) user); simpl; [by exists post|].
    unfold save. simpl. rewrite lookup_insert_eq. eexists. split; [done|]. simpl.
    eapply sublist_NoDup; [exact Hnd|]. apply fmap_sublist. unfold remove.
    apply filter_sublist.
Qed.

End Subdocuments.

(** ** Tags *)

Section Tags.

Lemma trim_idempotent (s : string) : JS.trim (JS.trim s) = JS.trim s.
Proof.
  unfold JS.trim. destruct (JS.trimStart s) as [|c t] eqn:E; [done|].
  pose proof (trimStart_head s c t E) as Hc.
  destruct (trimEnd_head c t Hc) as [t' Ht'].
  rewrite Ht'. simpl JS.trimStart. rewrite Hc.
  by rewrite <- Ht', trimEnd_idempotent.
Qed.

Lemma trimStart_keeps_absent c (s : string) :
  JS.contains_char c s = false → JS.contains_char c (JS.trimStart s) = false.
Proof.
  induction s as [|d s IH]; simpl; [done|].
  intros H. apply orb_false_iff in H as [Hd Hs].
  destruct (JS.isWhiteSpace d); [by apply IH|]. simpl. by rewrite Hd, Hs.
Qed.

Lemma trimEnd_keeps_absent c (s : string) :
  JS.contains_char c s = false → JS.contains_char c (JS.trimEnd s) = false.
Proof.
  induction s as [|d s IH]; simpl; [done|].
  intros H. apply orb_false_iff in H as [Hd Hs]. specialize (IH Hs).
  destruct (JS.trimEnd s) as [|e t].
  - destruct (JS.isWhiteSpace d); simpl; [done|]. by rewrite Hd.
  - simpl in *. by rewrite Hd, IH.
Qed.

Lemma split_tags_pieces t tag :
  tag ∈ split_tags t → JS.trim tag = tag ∧ JS.contains_char "," tag = false.
Proof.
  unfold split_tags. intros Hin. apply list_elem_of_In, in_map_iff in Hin.
  destruct Hin as (piece & <- & Hpiece). split; [apply trim_idempotent|].
  unfold JS.trim. apply trimEnd_keeps_absent, trimStart_keeps_absent.
  pose proof (split_no_separator "," t) as Hall. rewrite Forall_forall in Hall.
  by apply Hall, list_elem_of_In.
Qed.

(** The tags that a request writes are clean: a tag of a new post, or of
    the update built from a body that sends tags, has no white space
    around it and holds no comma. *)
Theorem written_tags_are_trimmed env user post body tag :
  (tag ∈ tags (new_Post env user body).2 →
     JS.trim tag = tag ∧ JS.contains_char "," tag = false) ∧
  (JS.truthy (b_tags body) = true → tag ∈ u_tags (update_of post body) →
     JS.trim tag = tag ∧ JS.contains_char "," tag = false).
Proof.
  split.
  - simpl. destruct (JS.truthy (b_tags body)).
    + apply split_tags_pieces.
    + by intros ?%elem_of_nil.
  - intros Htr. simpl. rewrite Htr. apply split_tags_pieces.
Qed.

End Tags.

(** ** The validation rules of a new post *)

Section Rules.

Import Validators.

Lemma rule_nil ok field m : rule ok field m = [] ↔ ok = true.
Proof. unfold rule. by destruct ok. Qed.

Lemma isLength_min1 max v :
  isLength 1 max v = true ↔
  ∃ t, v = Some t ∧ (1 ≤ N.of_nat (String.length t) ≤ max)%N.
Proof.
  unfold isLength. rewrite andb_true_iff, !N.leb_le. split.
  - intros [Hmin Hmax]. destruct v as [t|]; simpl in *; [by exists t|lia].
  - by intros (t & -> & Hmin & Hmax).
Qed.

(** What [postValidation.create] lets through, of the bodies whose
    strings are made of code units below 256 (those of the model, in which
    no surrogate pair shortens the length that the rule counts). The next
    handler runs exactly when the title has 1 to 200 characters, the
    content 1 to 10000, the category 1 to 50, an absent field counting as
    empty, and the status, when there is one, is draft, published or
    archived. Any other such body is answered 400, Validation failed, and
    the handler does not run. Tags, excerpt and featured image are not
    looked at. *)
Theorem validate_create_gate b (db : Collection) next :
  ((∃ t, b_title b = Some t ∧ (1 ≤ N.of_nat (String.length t) ≤ 200)%N) ∧
   (∃ c, b_content b = Some c ∧ (1 ≤ N.of_nat (String.length c) ≤ 10000)%N) ∧
   (∃ c, b_category b = Some c ∧ (1 ≤ N.of_nat (String.length c) ≤ 50)%N) ∧
   (∀ s, b_status b = Some s → s = "draft" ∨ s = "published" ∨ s = "archived") →
   validate (postValidation_create b) db next = next) ∧
  (¬ ((∃ t, b_title b = Some t ∧ (1 ≤ N.of_nat (String.length t) ≤ 200)%N) ∧
      (∃ c, b_content b = Some c ∧ (1 ≤ N.of_nat (String.length c) ≤ 10000)%N) ∧
      (∃ c, b_category b = Some c ∧ (1 ≤ N.of_nat (String.length c) ≤ 50)%N) ∧
      (∀ s, b_status b = Some s → s = "draft" ∨ s = "published" ∨ s = "archived")) →
   validate (postValidation_create b) db next
     = (fail 400 (Text "Validation failed"), db)).
Proof.
  assert (postValidation_create b = [] ↔
          (∃ t, b_title b = Some t ∧ (1 ≤ N.of_nat (String.length t) ≤ 200)%N) ∧
          (∃ c, b_content b = Some c ∧ (1 ≤ N.of_nat (String.length c) ≤ 10000)%N) ∧
          (∃ c, b_category b = Some c ∧ (1 ≤ N.of_nat (String.length c) ≤ 50)%N) ∧
          (∀ s, b_status b = Some s → s = "draft" ∨ s = "published" ∨ s = "archived"))
    as Hiff.
  { unfold postValidation_create.
    rewrite !app_nil, !rule_nil, !isLength_min1.
    assert (match b_status b with
            | Some s => bool_decide (s ∈ ["draft"; "published"; "archived"])
            | None => true
            end = true ↔
            ∀ s, b_status b = Some s → s = "draft" ∨ s = "published" ∨ s = "archived")
      as ->; [|done].
    destruct (b_status b) as [s|]; [|by split].
    rewrite bool_decide_eq_true, !elem_of_cons, elem_of_nil. split.
    - intros H s' [= <-]. tauto.
    - intros H. destruct (H s eq_refl) as [?|[?|?]]; tauto. }
  split.
  - intros Hok. apply Hiff in Hok. by rewrite Hok.
  - intros Hno. unfold validate.
    destruct (postValidation_create b) eqn:E; [|done].
    exfalso. by apply Hno, Hiff.
Qed.

(** The length of a title is checked before the title is trimmed: a title
    of white space only, of 1 to 200 code units, raises no error, and the
    sanitizer then leaves the empty title. *)
Theorem title_is_checked_before_trimming b t :
  b_title b = Some t →
  (1 ≤ N.of_nat (String.length t) ≤ 200)%N →
  JS.trim t = "" →
  (∀ e, e ∈ postValidation_create b → path e ≠ "title") ∧
  b_title (sanitize_create b) = Some "".
Proof.
  intros Ht Hlen Htrim. split.
  - intros e. unfold postValidation_create.
    rewrite (proj2 (isLength_min1 200 (b_title b))) by eauto.
    simpl. rewrite !elem_of_app. unfold rule.
    intros [He | [He | He]];
      [destruct (isLength 1 10000 (b_content b))
      |destruct (isLength 1 50 (b_category b))
      |destruct (match b_status b with Some _ => _ | None => _ end)];
      try (by apply elem_of_nil in He);
      apply list_elem_of_singleton in He; by subst.
  - change (Some (JS.trim (default "" (b_title b))) = Some "").
    rewrite Ht. change (Some (JS.trim t) = Some ""). by rewrite Htrim.
Qed.

End Rules.

(** ** The further properties at concrete requests *)

Section MoreRequests.

Import Instance.

Lemma requests_touch_one_post_witness :
  dom (add_comment castObjectId env1 db13 alice id1 (Some "agreed")).2 = dom db13 ∧
  (add_comment castObjectId env1 db13 alice id1 (Some "agreed")).2 !! 2%N = db13 !! 2%N.
Proof.
  destruct (requests_touch_one_post castObjectId validateUpdate env1 db13 alice id1
              comment_id1 body1 (Some "agreed")
              (add_comment castObjectId env1 db13 alice id1 (Some "agreed")).2)
    as [Hdom Hother].
  { apply list_elem_of_In. simpl. right. right. right. left. reflexivity. }
  split; [exact Hdom|]. apply Hother. vm_compute. discriminate.
Defined.

Lemma author_and_date_are_fixed_witness :
  ∃ p', (get_post castObjectId db1 id1).2 !! 1%N = Some p' ∧
        author p' = 10%N ∧ createdAt p' = 100%Z ∧ (3 ≤ views p')%Z.
Proof.
  apply (author_and_date_are_fixed castObjectId validateUpdate env1 db1 alice id1
           comment_id1 body1 None 1%N post1 eq_refl).
  apply list_elem_of_In. simpl. left. reflexivity.
Defined.

Lemma missing_post_is_404_witness :
  like_post castObjectId db1 alice new_id = (fail 404 (Text "Post not found"), db1).
Proof.
  apply (missing_post_is_404 castObjectId validateUpdate env1 db1 alice new_id 30%N
           comment_id1 body1 None eq_refl eq_refl).
  apply list_elem_of_In. simpl. right. right. right. left. reflexivity.
Defined.

Lemma get_post_twice_witness :
  views <$> (get_post castObjectId (get_post castObjectId db1 id1).2 id1).2 !! 1%N
    = Some 5%Z.
Proof.
  rewrite (get_post_twice castObjectId db1 id1 1%N post1 eq_refl eq_refl).
  reflexivity.
Defined.

Lemma deleted_post_is_gone_witness :
  (delete_post castObjectId db13 alice id1).2 !! 2%N = db13 !! 2%N ∧
  statusCode (get_post castObjectId (delete_post castObjectId db13 alice id1).2 id1).1
    = 404.
Proof.
  destruct (deleted_post_is_gone castObjectId validateUpdate env1 db13 alice bob id1 1%N
              (post_n 1) body1 None eq_refl eq_refl (or_introl eq_refl))
    as (_ & Hother & Hget & _).
  split; [apply Hother; discriminate | exact Hget].
Defined.



Lemma page2_of_db13 :
  list_posts castObjectId regexp_ext db13 page2 =
    mkResponse 200 true None
      (Some (PostList (map (λ n, (N.of_nat n, post_n n)) [7; 6; 5; 4; 3])
                      (mkPagination 2 3 12))).
Proof. vm_compute. reflexivity. Qed.

Lemma page3_of_db13 :
  list_posts castObjectId regexp_ext db13 page3 =
    mkResponse 200 true None
      (Some (PostList (map (λ n, (N.of_nat n, post_n n)) [2; 1])
                      (mkPagination 3 3 12))).
Proof. vm_compute. reflexivity. Qed.

Lemma list_posts_sound_witness :
  db13 !! 7%N = Some (post_n 7) ∧ status (post_n 7) = Some "published".
Proof.
  destruct (list_posts_sound castObjectId regexp_ext db13 page2 _ _ 7%N (post_n 7)
              page2_of_db13) as (Hdb & Hstatus & _).
  { apply list_elem_of_In. simpl. left. reflexivity. }
  exact (conj Hdb Hstatus).
Defined.

Lemma list_posts_newest_first_witness :
  StronglySorted newest_first (map (λ n, (N.of_nat n, post_n n)) [7; 6; 5; 4; 3]).
Proof.
  exact (proj1 (list_posts_newest_first castObjectId regexp_ext db13 page2 _ _
                  page2_of_db13)).
Defined.

Lemma list_posts_next_page_witness :
  NoDup (map (λ n, (N.of_nat n, post_n n)) [7; 6; 5; 4; 3]
         ++ map (λ n, (N.of_nat n, post_n n)) [2; 1]).*1.
Proof.
  refine (proj1 (list_posts_next_page castObjectId regexp_ext db13 page2 page3 _ _ _ _
                   _ eq_refl eq_refl eq_refl eq_refl
                   eq_refl eq_refl eq_refl eq_refl eq_refl _ eq_refl
                   page2_of_db13 page3_of_db13)).
  - apply distinct_dates_of_NoDup. apply (bool_decide_unpack _). vm_compute. exact I.
  - vm_compute. reflexivity.
Defined.

Lemma list_posts_rejected_witness :
  statusCode (list_posts castObjectId regexp_ext db13
                (mkQuery (Some "-1") None None None None None)) = 500 ∧
  statusCode (list_posts castObjectId regexp_ext db13
                (mkQuery None None None None None (Some "alice"))) = 500 ∧
  list_posts castObjectId regexp_ext db13 (mkQuery None None (Some "c++") None None None)
    = fail 500 (ErrorMessage SyntaxError).
Proof.
  destruct (list_posts_rejected castObjectId regexp_ext db13
              (mkQuery (Some "-1") None None None None None)) as (Hpage & _ & _).
  destruct (list_posts_rejected castObjectId regexp_ext db13
              (mkQuery None None None None None (Some "alice"))) as (_ & Hauthor & _).
  destruct (list_posts_rejected castObjectId regexp_ext db13
              (mkQuery None None (Some "c++") None None None)) as (_ & _ & Hpattern).
  split; [|split].
  - apply Hpage; vm_compute; reflexivity.
  - apply (Hauthor "alice" eq_refl); [discriminate | reflexivity].
  - apply (Hpattern "c++" eq_refl); [discriminate | reflexivity | reflexivity].
Defined.

Lemma like_post_others_untouched_witness :
  ∃ post1',
    (like_post castObjectId db1 alice id1).2 !! 1%N = Some post1' ∧
    length (likes post1') = 2 ∧ mkLike 11%N ∈ likes post1'.
Proof.
  destruct (like_post_others_untouched castObjectId db1 alice id1 1%N post1
              eq_refl eq_refl) as (p & Hp & _ & Hmore & Hothers).
  exists p. split; [exact Hp|]. split.
  - apply Hmore. vm_compute. intros H. apply list_elem_of_In in H.
    simpl in H. destruct H as [H|[]]. discriminate H.
  - apply (Hothers 11%N); [discriminate|]. apply list_elem_of_In. left. reflexivity.
Defined.

Lemma update_post_fields_witness :
  ∃ post',
    (update_post castObjectId validateUpdate db1 alice id1 body1).2 = <[1%N := post']> db1 ∧
    title post' = Some "Aquifers, revised" ∧ content post' = Some "On recharge rates." ∧
    views post' = 3%Z ∧ likes post' = [mkLike 11%N].
Proof.
  destruct (update_post_fields castObjectId validateUpdate db1 alice id1 1%N post1 body1
              eq_refl eq_refl eq_refl)
    as (p & Hdb & _ & Ht & Hc & _ & _ & _ & _ & Hv & _ & Hl & _).
  exists p. exact (conj Hdb (conj Ht (conj Hc (conj Hv Hl)))).
Defined.

Lemma delete_comment_refusals_witness :
  statusCode (delete_comment castObjectId db1 alice id1 new_id).1 = 404 ∧
  delete_comment castObjectId db1 alice id1 comment_id1
    = (fail 403 (Text "Not authorized to delete this comment"), db1).
Proof.
  destruct (delete_comment_refusals castObjectId db1 alice id1 new_id 1%N post1
              eq_refl eq_refl) as [Hnone _].
  destruct (delete_comment_refusals castObjectId db1 alice id1 comment_id1 1%N post1
              eq_refl eq_refl) as [_ Hother].
  split.
  - rewrite Hnone; [reflexivity|]. intros c Hc. apply list_elem_of_In in Hc.
    simpl in Hc. destruct Hc as [<-|[<-|[]]]; vm_compute; discriminate.
  - apply (Hother (mkComment 20%N 11%N (Some "nice") 101%Z)).
    + apply list_elem_of_In. left. reflexivity.
    + reflexivity.
    + apply (bool_decide_unpack _). vm_compute. exact I.
    + discriminate.
    + discriminate.
Defined.

Lemma add_then_delete_comment_witness :
  (delete_comment castObjectId
     (add_comment castObjectId env1 db1 alice id1 (Some "agreed")).2 alice id1 new_id).2
  = db1.
Proof.
  rewrite (add_then_delete_comment castObjectId env1 db1 alice id1 new_id 1%N post1
             "agreed" eq_refl eq_refl); [reflexivity | discriminate | reflexivity |].
  apply (bool_decide_unpack _). vm_compute. exact I.
Defined.

Lemma comment_ids_stay_distinct_witness :
  ∃ post',
    (add_comment castObjectId env1 db1 alice id1 (Some "agreed")).2 !! 1%N = Some post' ∧
    NoDup (comment_id <$> comments post').
Proof.
  destruct (comment_ids_stay_distinct castObjectId env1 db1 alice id1 comment_id1 1%N
              post1 (Some "agreed") eq_refl eq_refl) as [Hadd _].
  { apply (bool_decide_unpack _). vm_compute. exact I. }
  apply Hadd. apply (bool_decide_unpack _). vm_compute. exact I.
Defined.

Lemma written_tags_are_trimmed_witness :
  JS.trim "karst" = "karst" ∧ JS.contains_char "," "karst" = false.
Proof.
  apply (proj1 (written_tags_are_trimmed env1 alice post1 body_new "karst")).
  apply list_elem_of_In. left. reflexivity.
Defined.

Lemma validate_create_gate_witness :
  Validators.validate (Validators.postValidation_create body_new) db1
    (create_post validatePost env1 db1 alice body_new)
  = create_post validatePost env1 db1 alice body_new.
Proof.
  apply (proj1 (validate_create_gate body_new db1
                  (create_post validatePost env1 db1 alice body_new))).
  split; [|split; [|split]].
  - eexists. split; [reflexivity|]. vm_compute. split; discriminate.
  - eexists. split; [reflexivity|]. vm_compute. split; discriminate.
  - eexists. split; [reflexivity|]. vm_compute. split; discriminate.
  - intros s H. discriminate H.
Defined.

Lemma title_is_checked_before_trimming_witness :
  b_title (sanitize_create body_blank_title) = Some "".
Proof.
  apply (proj2 (title_is_checked_before_trimming body_blank_title "   " eq_refl
                  ltac:(vm_compute; split; discriminate) eq_refl)).
Defined.

Lemma literal_category_filter_witness :
  ∃ r, f_category (mkFilter (Some "published") (Some (RegExp.Fragment
         [RegExp.Lit "h"; RegExp.Lit "y"; RegExp.Lit "d"])) None None) = Some r ∧
       RegExp.test r "Hydrology" = true.
Proof.
  destruct (literal_category_filter regexp_ext
              (mkQuery None None (Some "hyd") None None None) "hyd"
              (mkFilter (Some "published") (Some (RegExp.Fragment
                 [RegExp.Lit "h"; RegExp.Lit "y"; RegExp.Lit "d"])) None None)
              eq_refl ltac:(discriminate) eq_refl eq_refl) as (r & Hr & Htest).
  exists r. split; [exact Hr|]. rewrite Htest. reflexivity.
Defined.

Lemma like_post_keeps_likes_distinct_witness :
  ∃ post1', (like_post castObjectId db1 alice id1).2 !! 1%N = Some post1' ∧
            NoDup (likes post1').
Proof.
  apply (like_post_keeps_likes_distinct castObjectId db1 alice id1 1%N post1
           eq_refl eq_refl).
  apply (bool_decide_unpack _). vm_compute. exact I.
Defined.

Lemma empty_status_drops_filter_witness :
  ∃ posts pg,
    list_posts castObjectId regexp_ext db13 every_status
      = mkResponse 200 true None (Some (PostList posts pg)) ∧
    total pg = 13%Z ∧
    (13%N, post_n 13) ∈ posts ∧ status (post_n 13) = Some "draft" ∧
    (1%N, post_n 1) ∈ posts ∧ status (post_n 1) = Some "published".
Proof.
  destruct (empty_status_drops_filter castObjectId regexp_ext db13 every_status)
    as (_ & _ & Hall & _).
  destruct Hall as (posts & pg & Hres & Htotal & Hposts); try reflexivity.
  { vm_compute. discriminate. }
  exists posts, pg. split; [exact Hres|]. split; [exact Htotal|].
  split; [apply Hposts; reflexivity|]. split; [reflexivity|].
  split; [apply Hposts; reflexivity|reflexivity].
Defined.

End MoreRequests.
